(** * SiteInsightAI: the site catalog of [ai_insight.py]

    A shallow embedding of [SiteInformation] and [SitesInformation]
    (src/ai_insight.py) and the properties of the catalog operations:
    construction from the parsed data file, the NSFW filter, the sorted
    name list and the anomaly lint.

    Conventions of the embedding.
    - A Python [str] is a [string]: a sequence of code points below 256.
      Character classes and case mappings are Python's Unicode ones
      restricted to that range.
    - A [dict] is an association list in insertion order whose keys are
      pairwise distinct ([Dict.wf]).
    - A parsed JSON document is a [json] value; Python's [float] is the
      primitive binary64 [float].
    - A method is a computation in the monad [M]: it reads and writes the
      object [self], appends to a trace of observable events (lines
      printed, files opened, URLs fetched) and either returns a value or
      raises an exception. *)

From Stdlib Require Import String Ascii List ZArith NArith Bool Arith Lia.
From Stdlib Require Import Sorted Permutation.
From Stdlib Require Import Floats.PrimFloat.
From Stdlib Require Strings.Byte.
Import ListNotations.

Local Open Scope string_scope.
Local Open Scope list_scope.

(** ** Python strings *)

Module PyStr.

Definition ord (c : ascii) : N := N_of_ascii c.
Definition chr (n : N) : ascii := ascii_of_N n.

Definition between (lo hi n : N) : bool := (lo <=? n)%N && (n <=? hi)%N.

(** The line feed, and [print]'s line terminator. *)
Definition LF : ascii := chr 10.
Definition nl : string := String LF "".

(** [str.isspace] on one code point: the ASCII white space
    (U+0009..U+000D, U+001C..U+0020) and, above it, NEL and NBSP. *)
Definition isspace (c : ascii) : bool :=
  let n := ord c in
  between 9 13 n || between 28 32 n || (n =? 133)%N || (n =? 160)%N.

(** [str.isalnum] on one code point: ASCII digits and letters, and in
    the upper half the letters (feminine and masculine ordinal, micro
    sign, U+00C0..U+00FF without the two operators) and the numeric
    characters (superscripts one to three, the three vulgar fractions). *)
Definition isalnum (c : ascii) : bool :=
  let n := ord c in
  between 48 57 n || between 65 90 n || between 97 122 n
  || (n =? 170)%N || (n =? 178)%N || (n =? 179)%N || (n =? 181)%N
  || (n =? 185)%N || (n =? 186)%N || between 188 190 n
  || between 192 214 n || between 216 246 n || between 248 255 n.

(** [str.lower]: A..Z and U+00C0..U+00DE (but the multiplication sign)
    move up by 32. *)
Definition lower_char (c : ascii) : ascii :=
  let n := ord c in
  if between 65 90 n || (between 192 222 n && negb (n =? 215)%N)
  then chr (n + 32) else c.

Fixpoint lower (s : string) : string :=
  match s with
  | EmptyString => EmptyString
  | String c s' => String (lower_char c) (lower s')
  end.

(** [str.casefold] leaves the range: sharp s folds to "ss" and the micro
    sign to the Greek mu (U+03BC), so the result is a list of code points. *)
Definition casefold_char (c : ascii) : list N :=
  let n := ord c in
  if (n =? 223)%N then [115; 115]%N
  else if (n =? 181)%N then [956%N]
  else [ord (lower_char c)].

Fixpoint casefold (s : string) : list N :=
  match s with
  | EmptyString => []
  | String c s' => casefold_char c ++ casefold s'
  end.

Definition startswith (s p : string) : bool := String.prefix p s.

Definition endswith (s suffix : string) : bool :=
  (String.length suffix <=? String.length s)%nat
  && String.eqb
       (String.substring (String.length s - String.length suffix)
                         (String.length suffix) s)
       suffix.

(** Truth value of a [str]. *)
Definition nonempty (s : string) : bool :=
  match s with EmptyString => false | _ => true end.

(** [x in l] for a list of case-folded names. *)
Definition codes_eqb (a b : list N) : bool :=
  if list_eq_dec N.eq_dec a b then true else false.

Definition contains (l : list (list N)) (x : list N) : bool :=
  existsb (codes_eqb x) l.

(** [sorted(l, key=key)]: a stable sort by [<=] on the keys. *)
Section Sorted.
Context {A : Type} (key : A -> string).

Fixpoint insert (x : A) (l : list A) : list A :=
  match l with
  | [] => [x]
  | y :: l' => if String.leb (key x) (key y) then x :: l else y :: insert x l'
  end.

Definition sorted (l : list A) : list A := fold_right insert [] l.
End Sorted.

End PyStr.

(** ** Python dictionaries *)

Module Dict.
Section Dict.
Context {V : Type}.

Definition dict : Type := list (string * V).

Fixpoint get (d : dict) (k : string) : option V :=
  match d with
  | [] => None
  | (k', v) :: d' => if String.eqb k k' then Some v else get d' k
  end.

(** [d[k] = v]: an existing key keeps its place, a new one goes last. *)
Fixpoint set (d : dict) (k : string) (v : V) : dict :=
  match d with
  | [] => [(k, v)]
  | (k', v') :: d' =>
      if String.eqb k k' then (k', v) :: d' else (k', v') :: set d' k v
  end.

Definition mem (k : string) (d : dict) : bool :=
  match get d k with Some _ => true | None => false end.

Definition keys (d : dict) : list string := map fst d.
Definition values (d : dict) : list V := map snd d.

(** [d.pop(k, None)], the dictionary that is left. *)
Fixpoint pop (d : dict) (k : string) : dict :=
  match d with
  | [] => []
  | (k', v) :: d' => if String.eqb k k' then d' else (k', v) :: pop d' k
  end.

Definition wf (d : dict) : Prop := NoDup (keys d).

End Dict.
Arguments dict V : clear implicits.
End Dict.

(** ** Parsed JSON *)

Unset Elimination Schemes.
Inductive json : Type :=
| JNull
| JBool (b : bool)
| JInt (z : Z)
| JFloat (f : float)
| JStr (s : string)
| JList (l : list json)
| JDict (d : list (string * json)).
Set Elimination Schemes.

(** Python's truth value of a parsed JSON value. *)
Definition truthy (v : json) : bool :=
  match v with
  | JNull => false
  | JBool b => b
  | JInt z => negb (z =? 0)%Z
  | JFloat f => negb (PrimFloat.eqb f 0%float)
  | JStr s => PyStr.nonempty s
  | JList l => match l with [] => false | _ => true end
  | JDict d => match d with [] => false | _ => true end
  end.

(** ** Regular expressions

    The fragment of [re] that the patterns of [detect_anomalies] are
    written in: the anchors [^] and [$], literal characters, escaped
    punctuation, the classes [\S], [\s], [\w] and [\d], and the postfix
    quantifiers [?], [+] and [*] on a single character. *)

Module Re.

Inductive cset : Type :=
| Lit (c : ascii)
| Space (positive : bool)
| Word
| Digit.

Inductive quant : Type := One | Opt | Plus | Star.

Inductive item : Type :=
| Bol
| Eol
| Atom (c : cset) (q : quant).

Definition cset_mem (cs : cset) (c : ascii) : bool :=
  match cs with
  | Lit c' => Ascii.eqb c c'
  | Space positive => Bool.eqb (PyStr.isspace c) positive
  | Word => PyStr.isalnum c || Ascii.eqb c "_"
  | Digit => PyStr.between 48 57 (PyStr.ord c)
  end.

(** Characters with a meaning of their own that the fragment leaves out. *)
Definition unsupported (c : ascii) : bool :=
  existsb (Ascii.eqb c) (list_ascii_of_string ".[](){}|").

Definition escape (c : ascii) : option cset :=
  if Ascii.eqb c "S" then Some (Space false)
  else if Ascii.eqb c "s" then Some (Space true)
  else if Ascii.eqb c "w" then Some Word
  else if Ascii.eqb c "d" then Some Digit
  else if PyStr.isalnum c then None
  else Some (Lit c).

(** A quantifier applies to the atom read last ([acc] is in reverse). *)
Definition quantify (q : quant) (acc : list item) : option (list item) :=
  match acc with
  | Atom c One :: acc' => Some (Atom c q :: acc')
  | _ => None
  end.

Fixpoint parse (s : string) (acc : list item) : option (list item) :=
  match s with
  | EmptyString => Some (rev acc)
  | String c s' =>
      if Ascii.eqb c "^" then parse s' (Bol :: acc)
      else if Ascii.eqb c "$" then parse s' (Eol :: acc)
      else if Ascii.eqb c "?" then
        match quantify Opt acc with Some a => parse s' a | None => None end
      else if Ascii.eqb c "+" then
        match quantify Plus acc with Some a => parse s' a | None => None end
      else if Ascii.eqb c "*" then
        match quantify Star acc with Some a => parse s' a | None => None end
      else if Ascii.eqb c "\" then
        match s' with
        | String e s'' =>
            match escape e with
            | Some cs => parse s'' (Atom cs One :: acc)
            | None => None
            end
        | EmptyString => None
        end
      else if unsupported c then None
      else parse s' (Atom (Lit c) One :: acc)
  end.

Definition compile (pattern : string) : option (list item) := parse pattern [].

(** [$] holds at the end of the subject and before a line feed that ends it. *)
Definition at_end (s : string) : bool :=
  match s with
  | EmptyString => true
  | String c EmptyString => Ascii.eqb c PyStr.LF
  | _ => false
  end.

(** Is there a match of [items] that starts where [s] starts?  [bos] says
    whether that place is the beginning of the subject. *)
Fixpoint match_here (items : list item) (s : string) (bos : bool) : bool :=
  match items with
  | [] => true
  | Bol :: rest => bos && match_here rest s bos
  | Eol :: rest => at_end s && match_here rest s bos
  | Atom cs One :: rest =>
      match s with
      | String c s' => cset_mem cs c && match_here rest s' false
      | EmptyString => false
      end
  | Atom cs Opt :: rest =>
      match s with
      | String c s' => cset_mem cs c && match_here rest s' false
      | EmptyString => false
      end
      || match_here rest s bos
  | Atom cs Plus :: rest =>
      (fix more (s : string) : bool :=
         match s with
         | String c s' => cset_mem cs c && (more s' || match_here rest s' false)
         | EmptyString => false
         end) s
  | Atom cs Star :: rest =>
      (fix more (s : string) : bool :=
         match s with
         | String c s' => cset_mem cs c && (more s' || match_here rest s' false)
         | EmptyString => false
         end) s
      || match_here rest s bos
  end.

End Re.

(** ** [secrets.token_urlsafe]

    [token_urlsafe(nbytes)] reads [nbytes] bytes from the operating
    system's entropy source and returns their URL-safe base64 text with
    the padding stripped. *)

Module Secrets.

Definition b64_alphabet : list ascii :=
  list_ascii_of_string
    "ABCDEFGHIJKLMNOPQRSTUVWXYZabcdefghijklmnopqrstuvwxyz0123456789+/".

Definition b64_char (i : N) : ascii := nth (N.to_nat i) b64_alphabet "="%char.

Fixpoint b64encode (bs : list N) : string :=
  match bs with
  | [] => ""
  | [a] =>
      String (b64_char (a / 4))
        (String (b64_char ((a mod 4) * 16)) "==")
  | [a; b] =>
      String (b64_char (a / 4))
        (String (b64_char ((a mod 4) * 16 + b / 16))
           (String (b64_char ((b mod 16) * 4)) "="))
  | a :: b :: c :: rest =>
      String (b64_char (a / 4))
        (String (b64_char ((a mod 4) * 16 + b / 16))
           (String (b64_char ((b mod 16) * 4 + c / 64))
              (String (b64_char (c mod 64)) (b64encode rest))))
  end%N.

Definition urlsafe_char (c : ascii) : ascii :=
  if Ascii.eqb c "+" then "-"%char
  else if Ascii.eqb c "/" then "_"%char
  else c.

Fixpoint translate (f : ascii -> ascii) (s : string) : string :=
  match s with
  | EmptyString => EmptyString
  | String c s' => String (f c) (translate f s')
  end.

Definition urlsafe_b64encode (bs : list N) : string :=
  translate urlsafe_char (b64encode bs).

Fixpoint rstrip (ch : ascii) (s : string) : string :=
  match s with
  | EmptyString => EmptyString
  | String c s' =>
      match rstrip ch s' with
      | EmptyString => if Ascii.eqb c ch then EmptyString else String c EmptyString
      | r => String c r
      end
  end.

(** [os.urandom]: the entropy source is the sequence of bytes it will
    hand out; [pos] counts the bytes already taken. *)
Definition token_bytes (urandom : nat -> Byte.byte) (nbytes pos : nat)
  : list N * nat :=
  (map (fun i => Byte.to_N (urandom i)) (seq pos nbytes), pos + nbytes).

Definition token_urlsafe (urandom : nat -> Byte.byte) (nbytes pos : nat)
  : string * nat :=
  let (tok, pos') := token_bytes urandom nbytes pos in
  (rstrip "=" (urlsafe_b64encode tok), pos').

(** The characters of a URL-safe token. *)
Definition is_urlsafe (c : ascii) : bool :=
  let n := PyStr.ord c in
  PyStr.between 48 57 n || PyStr.between 65 90 n || PyStr.between 97 122 n
  || Ascii.eqb c "-" || Ascii.eqb c "_".

Fixpoint all_chars (p : ascii -> bool) (s : string) : bool :=
  match s with
  | EmptyString => true
  | String c s' => p c && all_chars p s'
  end.

End Secrets.

(** ** Exceptions, events and the method monad *)

Inductive exn : Type :=
| KeyError (key : string)
| TypeError
| AttributeError
| ValueError (msg : string)
| FileNotFoundError (msg : string)
| OtherError (msg : string).

(** [str(error)] as the messages of the source interpolate it.  The keys
    looked up are identifiers, which [repr] only puts in quotes. *)
Definition str_of_exn (e : exn) : string :=
  match e with
  | KeyError key => "'" ++ key ++ "'"
  | TypeError => ""
  | AttributeError => ""
  | ValueError msg => msg
  | FileNotFoundError msg => msg
  | OtherError msg => msg
  end.

Inductive event : Type :=
| Print (text : string)
| HttpGet (url : string)
| OpenFile (path : string).

Record outcome (S A : Type) : Type := Outcome {
  trace : list event;
  final : S;
  result : exn + A
}.
Arguments Outcome {S A} _ _ _.
Arguments trace {S A} _.
Arguments final {S A} _.
Arguments result {S A} _.

Definition M (S A : Type) : Type := S -> outcome S A.

Section Monad.
Context {S : Type}.

Definition ret {A} (a : A) : M S A := fun s => Outcome [] s (inr a).

Definition raise {A} (e : exn) : M S A := fun s => Outcome [] s (inl e).

Definition bind {A B} (m : M S A) (f : A -> M S B) : M S B :=
  fun s =>
    let o := m s in
    match result o with
    | inl e => Outcome (trace o) (final o) (inl e)
    | inr a =>
        let o' := f a (final o) in
        Outcome (trace o ++ trace o') (final o') (result o')
    end.

Definition get_self : M S S := fun s => Outcome [] s (inr s).
Definition put_self (s : S) : M S unit := fun _ => Outcome [] s (inr tt).

Definition print (text : string) : M S unit :=
  fun s => Outcome [Print text] s (inr tt).

Definition lift {A} (r : exn + A) : M S A :=
  match r with inl e => raise e | inr a => ret a end.

(** [try: m except ...: handler]: [handler e] is the clause that catches
    [e], if there is one. *)
Definition try_except {A} (m : M S A) (handler : exn -> option (M S A))
  : M S A :=
  fun s =>
    let o := m s in
    match result o with
    | inr a => o
    | inl e =>
        match handler e with
        | None => o
        | Some h =>
            let o' := h (final o) in
            Outcome (trace o ++ trace o') (final o') (result o')
        end
    end.

(** [for x in l: body]. *)
Fixpoint for_ {X} (l : list X) (body : X -> M S unit) : M S unit :=
  match l with
  | [] => ret tt
  | x :: l' => bind (body x) (fun _ => for_ l' body)
  end.

(** A loop that updates a local variable. *)
Fixpoint for_acc {X A} (l : list X) (acc : A) (body : X -> A -> M S A)
  : M S A :=
  match l with
  | [] => ret acc
  | x :: l' => bind (body x acc) (fun acc' => for_acc l' acc' body)
  end.

End Monad.

Declare Scope py_scope.
Delimit Scope py_scope with py.
Notation "x <- m ;; k" := (bind m (fun x => k))
  (at level 61, m at next level, right associativity) : py_scope.
Notation "m ;;; k" := (bind m (fun _ => k))
  (at level 61, right associativity) : py_scope.

(** ** The program *)

(** What fetching a URL or opening and parsing a file comes to. *)
Inductive reply : Type :=
| NoAccess (error : string)   (* requests.RequestException, FileNotFoundError *)
| BadJson (error : string)    (* the JSON decoder's error *)
| Content (site_data : json)
| Failure (e : exn).          (* any exception no clause catches *)

Record SiteInformation : Type := {
  name : string;
  url_home : json;
  url_username_format : json;
  username_claimed : json;
  username_unclaimed : string;
  information : Dict.dict json;
  is_nsfw : json
}.

Record SitesInformation : Type := { sites : Dict.dict SiteInformation }.

Definition Method (A : Type) : Type := M SitesInformation A.

Definition default_data_file_path : string :=
  "https://raw.githubusercontent.com/sherlock-project/sherlock/master/sherlock_project/resources/data.json".

(** [patterns] of [detect_anomalies], in the order of the literal. *)
Definition patterns : list (string * string) :=
  [ ("url", "^https?://\S+\.\S+$");
    ("username_claimed", "^\w+$") ].

(** [re.match(pattern, value)] as a truth value: a subject that is not a
    [str] raises [TypeError]. *)
Definition re_match (pattern : string) (value : json) : exn + bool :=
  match Re.compile pattern with
  | None => inl (OtherError "re.error")
  | Some items =>
      match value with
      | JStr s => inr (Re.match_here items s true)
      | _ => inl TypeError
      end
  end.

(** [d[key]] on a dictionary. *)
Definition subscript {V} (d : Dict.dict V) (key : string) : exn + V :=
  match Dict.get d key with
  | Some v => inr v
  | None => inl (KeyError key)
  end.

(** [d.get(key, default)]. *)
Definition get_default {V} (d : Dict.dict V) (key : string) (default : V) : V :=
  match Dict.get d key with
  | Some v => v
  | None => default
  end.

Definition anomaly_message (site_name key : string) : string :=
  "Anomaly detected for site '" ++ site_name ++ "': Invalid '" ++ key ++ "'".

Definition skip_message (site_name : string) : string :=
  "Encountered TypeError parsing json contents for target '" ++ site_name
  ++ "'" ++ PyStr.nl ++ "Skipping target." ++ PyStr.nl.

Definition missing_attribute_message (error : exn) : string :=
  "Problem parsing json contents: Missing attribute " ++ str_of_exn error ++ ".".

Section Program.

Local Open Scope py_scope.

(** The bytes [os.urandom] hands out while the module is imported. *)
Variable urandom : nat -> Byte.byte.

(** The network and the file system: what [requests.get(url).json()] and
    [json.load(open(path))] come to. *)
Variable requests_get : string -> reply.
Variable open_json : string -> reply.

(** *** class SiteInformation *)

(** The default of the parameter [username_unclaimed]: Python evaluates a
    default once, when the [def] statement runs. *)
Definition username_unclaimed_default : string :=
  fst (Secrets.token_urlsafe urandom 10 0).

Definition SiteInformation_init
    (name : string) (url_home url_username_format username_claimed : json)
    (information : Dict.dict json) (is_nsfw : json)
    (username_unclaimed : option string) : SiteInformation :=
  {| name := name;
     url_home := url_home;
     url_username_format := url_username_format;
     username_claimed := username_claimed;
     username_unclaimed :=
       match username_unclaimed with
       | Some u => u
       | None => username_unclaimed_default
       end;
     information := information;
     is_nsfw := is_nsfw |}.

(** *** class SitesInformation *)

(** [self.sites[site_name] = SiteInformation(...)] for one entry.  A
    subscript by a [str] raises [TypeError] on anything but a dictionary. *)
Definition construct_site (site_name : string) (entry : json) : Method unit :=
  match entry with
  | JDict d =>
      url_home <- lift (subscript d "urlMain") ;;
      url_username_format <- lift (subscript d "url") ;;
      username_claimed <- lift (subscript d "username_claimed") ;;
      let site :=
        SiteInformation_init site_name url_home url_username_format
          username_claimed d (get_default d "isNSFW" (JBool false)) None in
      self <- get_self ;;
      put_self {| sites := Dict.set (sites self) site_name site |}
  | _ => raise TypeError
  end.

Definition _initialize_sites (site_data : Dict.dict json) : Method unit :=
  for_ (Dict.keys site_data) (fun site_name =>
    try_except
      (entry <- lift (subscript site_data site_name) ;;
       construct_site site_name entry)
      (fun error =>
         match error with
         | KeyError _ => Some (raise (ValueError (missing_attribute_message error)))
         | TypeError => Some (print (skip_message site_name))
         | _ => None
         end)).

(** [site_data.pop('$schema', None)]. *)
Definition pop_schema (site_data : json) : exn + Dict.dict json :=
  match site_data with
  | JDict d => inr (Dict.pop d "$schema")
  | JList _ => inl TypeError
  | _ => inl AttributeError
  end.

(** Reading the data file: the events, then the parsed content.  The
    error that [response.json()] raises on a body that is no JSON
    (requests 2.27 and later) is a [RequestException] as well as a
    [ValueError], so the first [except] clause of the URL branch takes it;
    [json.load] on a file raises a plain [ValueError]. *)
Definition load (data_file_path : string) : list event * (exn + json) :=
  if PyStr.startswith (PyStr.lower data_file_path) "http" then
    ([HttpGet data_file_path],
     match requests_get data_file_path with
     | Content site_data => inr site_data
     | NoAccess error =>
         inl (FileNotFoundError
                ("Problem while attempting to access data file URL '"
                 ++ data_file_path ++ "': " ++ error)%string)
     | BadJson error =>
         inl (FileNotFoundError
                ("Problem while attempting to access data file URL '"
                 ++ data_file_path ++ "': " ++ error)%string)
     | Failure e => inl e
     end)
  else
    ([OpenFile data_file_path],
     match open_json data_file_path with
     | Content site_data => inr site_data
     | NoAccess _ =>
         inl (FileNotFoundError
                ("Problem while attempting to access data file '"
                 ++ data_file_path ++ "'.")%string)
     | BadJson error =>
         inl (ValueError
                ("Problem parsing json contents at '" ++ data_file_path
                 ++ "': " ++ error ++ ".")%string)
     | Failure e => inl e
     end).

(** [SitesInformation(data_file_path)]: the events of the call and the
    object made, or the exception. *)
Definition SitesInformation_init (data_file_path : option string)
  : list event * (exn + SitesInformation) :=
  let data_file_path :=
    match data_file_path with
    | Some p => if PyStr.nonempty p then p else default_data_file_path
    | None => default_data_file_path
    end in
  if negb (PyStr.endswith (PyStr.lower data_file_path) ".json") then
    ([], inl (FileNotFoundError
                ("Incorrect JSON file extension for data file '"
                 ++ data_file_path ++ "'.")%string))
  else
    let (io, loaded) := load data_file_path in
    match loaded with
    | inl e => (io, inl e)
    | inr site_data =>
        match pop_schema site_data with
        | inl e => (io, inl e)
        | inr site_data =>
            let o := _initialize_sites site_data {| sites := [] |} in
            (io ++ trace o,
             match result o with
             | inl e => inl e
             | inr _ => inr (final o)
             end)
        end
    end.

Definition remove_nsfw_sites (do_not_remove : list string) : Method unit :=
  let do_not_remove := map PyStr.casefold do_not_remove in
  self <- get_self ;;
  sites' <- for_acc (Dict.keys (sites self)) []
    (fun site sites' =>
       record <- lift (subscript (sites self) site) ;;
       if truthy (is_nsfw record)
          && negb (PyStr.contains do_not_remove (PyStr.casefold site))
       then ret sites'
       else ret (Dict.set sites' site record)) ;;
  put_self {| sites := sites' |}.

(** [__iter__], run to its end: the records in the order of the keys. *)
Definition iter_sites : Method (list SiteInformation) :=
  self <- get_self ;;
  for_acc (Dict.keys (sites self)) []
    (fun site_name yielded =>
       site <- lift (subscript (sites self) site_name) ;;
       ret (yielded ++ [site])).

Definition site_name_list : Method (list string) :=
  all_sites <- iter_sites ;;
  ret (PyStr.sorted PyStr.lower (map name all_sites)).

Definition len : Method nat :=
  self <- get_self ;;
  ret (List.length (sites self)).

Definition check_pattern (site : SiteInformation) (rule : string * string)
  : Method unit :=
  let (key, pattern) := rule in
  if Dict.mem key (information site) then
    value <- lift (subscript (information site) key) ;;
    matched <- lift (re_match pattern value) ;;
    if negb matched then print (anomaly_message (name site) key) else ret tt
  else ret tt.

Definition detect_anomalies : Method unit :=
  self <- get_self ;;
  for_ (Dict.values (sites self)) (fun site =>
    for_ patterns (fun rule => check_pattern site rule)).

End Program.

(** ** Catalogs *)

(** The invariant of a catalog: the keys of [sites] are pairwise distinct
    and each is the name of its record. *)
Definition named (entry : string * SiteInformation) : Prop :=
  name (snd entry) = fst entry.

Definition catalog_ok (self : SitesInformation) : Prop :=
  Dict.wf (sites self) /\ Forall named (sites self).

(** What [remove_nsfw_sites] keeps. *)
Definition kept (do_not_remove : list string) (entry : string * SiteInformation)
  : bool :=
  negb (truthy (is_nsfw (snd entry))
        && negb (PyStr.contains (map PyStr.casefold do_not_remove)
                                (PyStr.casefold (fst entry)))).

(** ** Definitions for the statements *)

(** The order of [sorted(..., key=key)]. *)
Definition key_le {A : Type} (key : A -> string) (x y : A) : Prop :=
  String.leb (key x) (key y) = true.

Section Rounds.
Context {X : Type} (tr : X -> list event) (res : X -> exn + unit).

(** The events and the result of a loop whose round on [x] prints [tr x]
    and ends as [res x]: it stops at the first round that raises. *)
Fixpoint run_rounds (l : list X) : list event * (exn + unit) :=
  match l with
  | [] => ([], inr tt)
  | x :: l' =>
      match res x with
      | inl e => (tr x, inl e)
      | inr _ => (tr x ++ fst (run_rounds l'), snd (run_rounds l'))
      end
  end.

End Rounds.

(** How the check of one rule on one record ends, and what it prints. *)
Definition rule_result (site : SiteInformation) (rule : string * string)
  : exn + unit :=
  match Dict.get (information site) (fst rule) with
  | None => inr tt
  | Some value =>
      match re_match (snd rule) value with
      | inl e => inl e
      | inr _ => inr tt
      end
  end.

Definition rule_trace (site : SiteInformation) (rule : string * string)
  : list event :=
  match Dict.get (information site) (fst rule) with
  | None => []
  | Some value =>
      match re_match (snd rule) value with
      | inr false => [Print (anomaly_message (name site) (fst rule))]
      | _ => []
      end
  end.

Definition site_rounds (site : SiteInformation) : list event * (exn + unit) :=
  run_rounds (rule_trace site) (rule_result site) patterns.

Definition is_str (v : json) : bool :=
  match v with JStr _ => true | _ => false end.

(** Every value that a rule of [patterns] reads in the record is a [str]. *)
Definition checked_values_are_str (site : SiteInformation) : bool :=
  forallb (fun rule : string * string =>
             match Dict.get (information site) (fst rule) with
             | Some value => is_str value
             | None => true
             end) patterns.

(** The fields the constructor call subscripts, in the order of its
    arguments. *)
Definition required_fields : list string := ["urlMain"; "url"; "username_claimed"].

(** The first required field that a raw entry mapping lacks. *)
Definition missing_field (d : Dict.dict json) : option string :=
  find (fun key => negb (Dict.mem key d)) required_fields.

Definition is_mapping (entry : json) : bool :=
  match entry with JDict _ => true | _ => false end.

(** A syntactically valid entry: a mapping with every required field. *)
Definition valid_entry (entry : json) : bool :=
  match entry with
  | JDict d => match missing_field d with None => true | Some _ => false end
  | _ => false
  end.

(** A mapping that lacks a required field. *)
Definition incomplete (entry : json) : bool :=
  match entry with
  | JDict d => match missing_field d with None => false | Some _ => true end
  | _ => false
  end.

Section BuildSpec.
Variable urandom : nat -> Byte.byte.

(** The record made from a valid entry. *)
Definition site_of_entry (site_name : string) (entry : json)
  : option SiteInformation :=
  match entry with
  | JDict d =>
      match Dict.get d "urlMain", Dict.get d "url", Dict.get d "username_claimed" with
      | Some h, Some u, Some c =>
          Some (SiteInformation_init urandom site_name h u c d
                  (get_default d "isNSFW" (JBool false)) None)
      | _, _, _ => None
      end
  | _ => None
  end.

Definition built_entry (e : string * json) : Dict.dict SiteInformation :=
  match site_of_entry (fst e) (snd e) with
  | Some site => [(fst e, site)]
  | None => []
  end.

(** The catalog made from a data set without incomplete entries. *)
Definition built (site_data : Dict.dict json) : Dict.dict SiteInformation :=
  flat_map built_entry site_data.

Definition skipped (site_data : Dict.dict json) : list event :=
  map (fun e => Print (skip_message (fst e)))
      (filter (fun e => negb (is_mapping (snd e))) site_data).

(** One round of the loop of [_initialize_sites]. *)
Definition round (site_data : Dict.dict json) (site_name : string)
  : Method unit :=
  try_except
    (bind (lift (subscript site_data site_name))
          (fun entry => construct_site urandom site_name entry))
    (fun error =>
       match error with
       | KeyError _ => Some (raise (ValueError (missing_attribute_message error)))
       | TypeError => Some (print (skip_message site_name))
       | _ => None
       end).

End BuildSpec.

(** A JSON object is parsed into a dictionary, whose keys are distinct. *)
Definition parsed_ok (source_reply : string -> reply) : Prop :=
  forall source d, source_reply source = Content (JDict d) -> Dict.wf d.

(** ** Sample inputs *)

(** An entropy source that hands out the bytes 0, 1, 2, ... *)
Definition count_up (i : nat) : Byte.byte :=
  match Byte.of_nat i with Some b => b | None => Byte.x00 end.

(** A machine without network and without data files. *)
Definition offline (source : string) : reply := NoAccess "unreachable".

Definition entry_of (url_main url claimed : json) : json :=
  JDict [("urlMain", url_main); ("url", url); ("username_claimed", claimed)].


(** A claimed user name that the data file gives as a number. *)
Definition numeric_name_data : Dict.dict json :=
  [("SiteA", entry_of (JStr "https://a.com") (JStr "https://a.com/{}") (JInt 123))].

(** Two sites; the second has a URL template without scheme and is
    flagged NSFW; between them an entry that is no mapping. *)
Definition sample_data : Dict.dict json :=
  [("SiteA", entry_of (JStr "https://a.com") (JStr "https://a.com/{}") (JStr "admin"));
   ("Broken", JList []);
   ("x", JDict [("urlMain", JStr "https://x.org"); ("url", JStr "x.org/{}");
                ("username_claimed", JStr "blue"); ("isNSFW", JBool true)])].

(** The record of the site "x" of [sample_data], under [count_up]. *)
Definition site_x : SiteInformation :=
  {| name := "x";
     url_home := JStr "https://x.org";
     url_username_format := JStr "x.org/{}";
     username_claimed := JStr "blue";
     username_unclaimed := "AAECAwQFBgcICQ";
     information :=
       [("urlMain", JStr "https://x.org"); ("url", JStr "x.org/{}");
        ("username_claimed", JStr "blue"); ("isNSFW", JBool true)];
     is_nsfw := JBool true |}.

Definition catalog_of (site_data : Dict.dict json) : SitesInformation :=
  final (_initialize_sites count_up site_data {| sites := [] |}).

(** ** Definitions for the further properties *)

(** An event that reaches the network or the file system. *)
Definition is_io (ev : event) : bool :=
  match ev with
  | Print _ => false
  | HttpGet _ => true
  | OpenFile _ => true
  end.

(** The path the constructor works with: the default URL stands in for a
    path that is omitted or empty. *)
Definition effective_path (data_file_path : option string) : string :=
  match data_file_path with
  | Some p => if PyStr.nonempty p then p else default_data_file_path
  | None => default_data_file_path
  end.

(** Every character of a string passes a test. *)
Fixpoint str_all (p : ascii -> bool) (s : string) : bool :=
  match s with
  | EmptyString => true
  | String c s' => p c && str_all p s'
  end.

(** The loop of a [+] item, with what follows it as a continuation. *)
Fixpoint plus_loop (cs : Re.cset) (k : string -> bool) (s : string) : bool :=
  match s with
  | String c s' => Re.cset_mem cs c && (plus_loop cs k s' || k s')
  | EmptyString => false
  end.

(** Does [x] have the sort key [k]? *)
Definition same_key {A : Type} (key : A -> string) (k : string) (x : A) : bool :=
  String.eqb (key x) k.

(** A source whose content is the JSON object [site_data]. *)
Definition file_with (site_data : Dict.dict json) (source : string) : reply :=
  Content (JDict site_data).

(** [sample_data] as a data file has it, with the schema reference. *)
Definition schema_data : Dict.dict json :=
  ("$schema", JStr "data.schema.json") :: sample_data.

(** A data set whose third entry lacks [url] and [username_claimed]. *)
Definition incomplete_data : Dict.dict json :=
  [("Broken", JList []);
   ("SiteA", entry_of (JStr "https://a.com") (JStr "https://a.com/{}") (JStr "admin"));
   ("NoUrl", JDict [("urlMain", JStr "https://n.org")]);
   ("Later", JNull)].

(** * Facts *)

(** ** Dictionaries *)

Section DictFacts.
Context {V : Type}.
Implicit Types (d : Dict.dict V) (k : string) (v : V).

Lemma get_cons_eq d k v : Dict.get ((k, v) :: d) k = Some v.
Proof. simpl. now rewrite String.eqb_refl. Qed.

Lemma get_cons_neq d k k' v : k <> k' -> Dict.get ((k', v) :: d) k = Dict.get d k.
Proof. intros H. simpl. apply String.eqb_neq in H. now rewrite H. Qed.

Lemma get_some_in d k v : Dict.get d k = Some v -> In (k, v) d.
Proof.
  induction d as [|[k' v'] d IH]; simpl; [discriminate|].
  destruct (String.eqb_spec k k') as [->|Hne]; intros H.
  - injection H as ->. now left.
  - right. auto.
Qed.

Lemma get_none_notin d k : Dict.get d k = None <-> ~ In k (Dict.keys d).
Proof.
  induction d as [|[k' v'] d IH]; simpl; [tauto|].
  destruct (String.eqb_spec k k') as [->|Hne].
  - split; [discriminate|]. intros H. exfalso. apply H. now left.
  - rewrite IH. split; intros H; [intros [E|I]; [congruence|auto]|auto].
Qed.

Lemma in_keys d k v : In (k, v) d -> In k (Dict.keys d).
Proof. intros H. apply (in_map fst) in H. exact H. Qed.

Lemma get_in_wf d k v : Dict.wf d -> In (k, v) d -> Dict.get d k = Some v.
Proof.
  unfold Dict.wf. induction d as [|[k' v'] d IH]; simpl; [tauto|].
  intros Hwf [E|I].
  - injection E as -> ->. now rewrite String.eqb_refl.
  - inversion Hwf as [|? ? Hnin Hnd]; subst.
    destruct (String.eqb_spec k k') as [->|Hne].
    + exfalso. apply Hnin. eapply in_keys; eauto.
    + auto.
Qed.

Lemma wf_unique d k v v' : Dict.wf d -> In (k, v) d -> In (k, v') d -> v = v'.
Proof.
  intros Hwf H1 H2.
  apply (get_in_wf _ _ _ Hwf) in H1. apply (get_in_wf _ _ _ Hwf) in H2.
  congruence.
Qed.

Lemma set_fresh d k v : ~ In k (Dict.keys d) -> Dict.set d k v = d ++ [(k, v)].
Proof.
  induction d as [|[k' v'] d IH]; simpl; [reflexivity|].
  intros H. destruct (String.eqb_spec k k') as [->|Hne].
  - exfalso. apply H. now left.
  - rewrite IH; [reflexivity|]. intros I. apply H. now right.
Qed.

Lemma keys_app d d' : Dict.keys (d ++ d') = Dict.keys d ++ Dict.keys d'.
Proof. apply map_app. Qed.

Lemma keys_filter_in (f : string * V -> bool) d k :
  In k (Dict.keys (filter f d)) -> In k (Dict.keys d).
Proof.
  unfold Dict.keys. rewrite !in_map_iff. intros [x [E I]].
  apply filter_In in I. exists x. tauto.
Qed.

Lemma wf_filter (f : string * V -> bool) d : Dict.wf d -> Dict.wf (filter f d).
Proof.
  unfold Dict.wf. induction d as [|[k v] d IH]; simpl; [auto|].
  intros Hwf. inversion Hwf as [|? ? Hnin Hnd]; subst.
  destruct (f (k, v)); simpl; [constructor|]; auto.
  intros I. apply Hnin. eapply keys_filter_in; eauto.
Qed.

Lemma filter_idem (f : string * V -> bool) d : filter f (filter f d) = filter f d.
Proof.
  induction d as [|x d IH]; simpl; [reflexivity|].
  destruct (f x) eqn:E; simpl; [rewrite E, IH|]; auto.
Qed.

End DictFacts.

(** ** The monad *)

Section MonadFacts.
Context {S : Type}.

Lemma bind_ret {A B} (a : A) (f : A -> M S B) (s : S) : bind (ret a) f s = f a s.
Proof. unfold bind, ret. simpl. now destruct (f a s). Qed.

Lemma bind_raise {A B} (e : exn) (f : A -> M S B) (s : S) :
  bind (raise e) f s = raise e s.
Proof. reflexivity. Qed.

Lemma bind_assoc {A B C} (m : M S A) (f : A -> M S B) (g : B -> M S C) (s : S) :
  bind (bind m f) g s = bind m (fun x => bind (f x) g) s.
Proof.
  unfold bind. destruct (m s) as [t s' [e|a]]; simpl; [reflexivity|].
  destruct (f a s') as [t' s'' [e|b]]; simpl; [reflexivity|].
  now rewrite app_assoc.
Qed.

Lemma bind_inr {A B} (m : M S A) (f : A -> M S B) (s s' : S) t (a : A) :
  m s = Outcome t s' (inr a) ->
  bind m f s
  = let o := f a s' in Outcome (t ++ trace o) (final o) (result o).
Proof. intros H. unfold bind. now rewrite H. Qed.

Lemma bind_inl {A B} (m : M S A) (f : A -> M S B) (s s' : S) t (e : exn) :
  m s = Outcome t s' (inl e) -> bind m f s = Outcome t s' (inl e).
Proof. intros H. unfold bind. now rewrite H. Qed.

Lemma outcome_eta {A} (o : outcome S A) :
  o = Outcome (trace o) (final o) (result o).
Proof. now destruct o. Qed.

(** A loop whose body leaves the object alone leaves it alone. *)
Lemma for_frame {X} (body : X -> M S unit) (l : list X) :
  (forall x s, final (body x s) = s) ->
  forall s, final (for_ l body s) = s.
Proof.
  intros Hb. induction l as [|x l IH]; intros s; simpl; [reflexivity|].
  unfold bind. destruct (result (body x s)) as [e|[]]; simpl; rewrite ?IH; apply Hb.
Qed.

(** If such a loop returns, every round returned and the trace is the
    rounds' traces in a row. *)
Lemma for_returns {X} (body : X -> M S unit) (l : list X) (s : S) :
  (forall x s, final (body x s) = s) ->
  result (for_ l body s) = inr tt ->
  Forall (fun x => result (body x s) = inr tt) l
  /\ trace (for_ l body s) = flat_map (fun x => trace (body x s)) l.
Proof.
  intros Hb. induction l as [|x l IH]; simpl; [auto|].
  unfold bind. destruct (result (body x s)) as [e|[]] eqn:E; simpl; [discriminate|].
  rewrite Hb. intros H. destruct (IH H) as [F T]. split; [constructor; auto|].
  now rewrite T.
Qed.

(** Conversely, if every round returns, so does the loop. *)
Lemma for_all_return {X} (body : X -> M S unit) (l : list X) (s : S) :
  (forall x s, final (body x s) = s) ->
  Forall (fun x => result (body x s) = inr tt) l ->
  result (for_ l body s) = inr tt.
Proof.
  intros Hb. induction 1 as [|x l Hx Hl IH]; simpl; [reflexivity|].
  unfold bind. rewrite Hx. simpl. now rewrite Hb.
Qed.

End MonadFacts.

(** ** [remove_nsfw_sites] *)

Section RemoveFacts.
Variable do_not_remove : list string.

(** The loop of [remove_nsfw_sites] over a part of the keys: it adds the
    kept entries to [acc], in order. *)
Lemma remove_loop (d : Dict.dict SiteInformation) (s : SitesInformation) :
  forall (entries acc : Dict.dict SiteInformation),
    (forall k r, In (k, r) entries -> Dict.get d k = Some r) ->
    NoDup (Dict.keys entries) ->
    (forall k, In k (Dict.keys entries) -> ~ In k (Dict.keys acc)) ->
    for_acc (Dict.keys entries) acc
      (fun site sites' =>
         bind (lift (subscript d site)) (fun record =>
           if truthy (is_nsfw record)
              && negb (PyStr.contains (map PyStr.casefold do_not_remove)
                                      (PyStr.casefold site))
           then ret sites'
           else ret (Dict.set sites' site record))) s
    = Outcome [] s (inr (acc ++ filter (kept do_not_remove) entries)).
Proof.
  induction entries as [|[k r] entries IH]; intros acc Hget Hnd Hfresh; simpl.
  - now rewrite app_nil_r.
  - inversion Hnd as [|? ? Hnin Hnd']; subst.
    unfold subscript. rewrite (Hget k r) by now left. simpl lift.
    rewrite bind_assoc, bind_ret. unfold kept at 1. simpl fst. simpl snd.
    destruct (truthy (is_nsfw r)
              && negb (PyStr.contains (map PyStr.casefold do_not_remove)
                                      (PyStr.casefold k))) eqn:E; simpl negb; cbv iota.
    + rewrite bind_ret. apply IH; auto.
      * intros k' r' I. apply Hget. now right.
      * intros k' I. apply Hfresh. now right.
    + rewrite bind_ret. rewrite set_fresh by (apply Hfresh; now left).
      unfold subscript in IH. rewrite IH; auto.
      * now rewrite <- app_assoc.
      * intros k' r' I. apply Hget. now right.
      * intros k' I. rewrite keys_app, in_app_iff. simpl.
        intros [J|[J|[]]]; [revert J; apply Hfresh; now right|].
        subst k'. contradiction.
Qed.

(** [remove_nsfw_sites] is a filter of the entries. *)
Lemma remove_nsfw_sites_filter (self : SitesInformation) :
  Dict.wf (sites self) ->
  remove_nsfw_sites do_not_remove self
  = Outcome [] {| sites := filter (kept do_not_remove) (sites self) |} (inr tt).
Proof.
  intros Hwf. unfold remove_nsfw_sites.
  erewrite bind_inr by reflexivity. cbn zeta.
  erewrite bind_inr.
  2: { apply (remove_loop (sites self) self (sites self) []).
       - intros k r I. now apply get_in_wf.
       - exact Hwf.
       - intros k _ []. }
  reflexivity.
Qed.

Lemma contains_In (l : list (list N)) (x : list N) :
  PyStr.contains l x = true <-> In x l.
Proof.
  unfold PyStr.contains, PyStr.codes_eqb. rewrite existsb_exists. split.
  - intros [y [I E]]. destruct (list_eq_dec N.eq_dec x y); [now subst|discriminate].
  - intros I. exists x. split; [exact I|].
    destruct (list_eq_dec N.eq_dec x x); congruence.
Qed.

Lemma kept_spec (k : string) (site : SiteInformation) :
  kept do_not_remove (k, site) = true
  <-> ~ (truthy (is_nsfw site) = true
         /\ ~ In (PyStr.casefold k) (map PyStr.casefold do_not_remove)).
Proof.
  unfold kept. simpl. rewrite negb_true_iff, andb_false_iff, negb_false_iff.
  rewrite contains_In. split.
  - intros [H|H] [T N]; [congruence|contradiction].
  - intros H. destruct (truthy (is_nsfw site)); [|now left]. right.
    destruct (in_dec (list_eq_dec N.eq_dec) (PyStr.casefold k)
                     (map PyStr.casefold do_not_remove)) as [I|I]; [exact I|].
    exfalso. apply H. auto.
Qed.

Lemma catalog_ok_filter (f : string * SiteInformation -> bool) self :
  catalog_ok self -> catalog_ok {| sites := filter f (sites self) |}.
Proof.
  intros [Hwf Hn]. split; simpl.
  - now apply wf_filter.
  - rewrite Forall_forall in *. intros x I. apply filter_In in I. apply Hn, I.
Qed.

End RemoveFacts.

(** ** Sorting by a string key *)

Lemma string_leb_trans (a b c : string) :
  String.leb a b = true -> String.leb b c = true -> String.leb a c = true.
Proof.
  unfold String.leb. revert b c.
  induction a as [|x a IH]; intros [|y b] [|z c]; simpl;
    try reflexivity; try discriminate.
  unfold Ascii.compare.
  destruct (N.compare_spec (N_of_ascii x) (N_of_ascii y)) as [E1|L1|G1];
    destruct (N.compare_spec (N_of_ascii y) (N_of_ascii z)) as [E2|L2|G2];
    destruct (N.compare_spec (N_of_ascii x) (N_of_ascii z)) as [E3|L3|G3];
    try lia; try discriminate; try reflexivity.
  apply IH.
Qed.

Section SortFacts.
Context {A : Type} (key : A -> string).

Lemma insert_perm (x : A) (l : list A) : Permutation (x :: l) (PyStr.insert key x l).
Proof.
  induction l as [|y l IH]; simpl; [reflexivity|].
  destruct (String.leb (key x) (key y)); [reflexivity|].
  rewrite perm_swap. now constructor.
Qed.

Lemma sorted_perm (l : list A) : Permutation l (PyStr.sorted key l).
Proof.
  induction l as [|x l IH]; simpl; [constructor|].
  rewrite <- insert_perm. now constructor.
Qed.

Lemma Forall_insert (P : A -> Prop) (x : A) (l : list A) :
  P x -> Forall P l -> Forall P (PyStr.insert key x l).
Proof.
  intros Hx Hl. induction Hl as [|y l Hy Hl IH]; simpl; [auto|].
  destruct (String.leb (key x) (key y)); auto.
Qed.

Lemma insert_sorted (x : A) (l : list A) :
  StronglySorted (key_le key) l -> StronglySorted (key_le key) (PyStr.insert key x l).
Proof.
  induction 1 as [|y l Hs IH Hy]; simpl.
  - repeat constructor.
  - destruct (String.leb (key x) (key y)) eqn:E.
    + constructor; [now constructor|]. constructor; [exact E|].
      eapply Forall_impl; [|exact Hy]. intros z Hz.
      unfold key_le in *. eapply string_leb_trans; eauto.
    + constructor; [exact IH|]. apply Forall_insert; [|exact Hy].
      unfold key_le. destruct (String.leb_total (key x) (key y)); congruence.
Qed.

Lemma sorted_sorted (l : list A) :
  StronglySorted (key_le key) (PyStr.sorted key l).
Proof.
  induction l as [|x l IH]; simpl; [constructor|]. now apply insert_sorted.
Qed.

End SortFacts.

(** ** Iteration and [site_name_list] *)

Lemma iter_loop (d : Dict.dict SiteInformation) (s : SitesInformation) :
  forall (entries : Dict.dict SiteInformation) (yielded : list SiteInformation),
    (forall k r, In (k, r) entries -> Dict.get d k = Some r) ->
    for_acc (Dict.keys entries) yielded
      (fun site_name yielded =>
         bind (lift (subscript d site_name)) (fun site => ret (yielded ++ [site]))) s
    = Outcome [] s (inr (yielded ++ Dict.values entries)).
Proof.
  induction entries as [|[k r] entries IH]; intros yielded Hget; simpl.
  - now rewrite app_nil_r.
  - unfold subscript. rewrite (Hget k r) by now left. simpl lift.
    rewrite bind_assoc, !bind_ret. unfold subscript in IH. rewrite IH.
    + now rewrite <- app_assoc.
    + intros k' r' I. apply Hget. now right.
Qed.

Lemma iter_sites_values (self : SitesInformation) :
  Dict.wf (sites self) ->
  iter_sites self = Outcome [] self (inr (Dict.values (sites self))).
Proof.
  intros Hwf. unfold iter_sites.
  erewrite bind_inr by reflexivity. cbn zeta.
  rewrite (iter_loop (sites self) self (sites self) []).
  - reflexivity.
  - intros k r I. now apply get_in_wf.
Qed.

Lemma names_are_keys (d : Dict.dict SiteInformation) :
  Forall named d -> map name (Dict.values d) = Dict.keys d.
Proof.
  induction 1 as [|[k r] d Hx Hd IH]; simpl; [reflexivity|].
  unfold named in Hx. simpl in Hx. now rewrite Hx, IH.
Qed.

(** ** Loops whose rounds leave the object alone *)

Section PureLoops.
Context {S X : Type} (tr : X -> list event) (res : X -> exn + unit).

Lemma for_rounds (body : X -> M S unit) (l : list X) (s : S) :
  (forall x, body x s = Outcome (tr x) s (res x)) ->
  for_ l body s = Outcome (fst (run_rounds tr res l)) s (snd (run_rounds tr res l)).
Proof.
  intros Hb. induction l as [|x l IH]; simpl; [reflexivity|].
  unfold bind. rewrite Hb. simpl.
  destruct (res x) as [e|[]]; simpl; [reflexivity|]. now rewrite IH.
Qed.

Lemma rounds_return (l : list X) :
  snd (run_rounds tr res l) = inr tt <-> Forall (fun x => res x = inr tt) l.
Proof.
  induction l as [|x l IH]; simpl.
  - split; auto.
  - destruct (res x) as [e|[]] eqn:E; simpl.
    + split; [discriminate|]. intros H. inversion H; congruence.
    + rewrite IH. split; intros H; [constructor; auto|now inversion H].
Qed.

Lemma rounds_raise (l : list X) (e : exn) :
  snd (run_rounds tr res l) = inl e -> exists x, In x l /\ res x = inl e.
Proof.
  induction l as [|x l IH]; simpl; [discriminate|].
  destruct (res x) as [e'|[]] eqn:E; simpl.
  - intros H. exists x. split; [now left|congruence].
  - intros H. destruct (IH H) as [y [I R]]. exists y. split; [now right|exact R].
Qed.

Lemma rounds_trace_in (l : list X) (ev : event) :
  In ev (fst (run_rounds tr res l)) -> exists x, In x l /\ In ev (tr x).
Proof.
  induction l as [|x l IH]; simpl; [tauto|].
  destruct (res x) as [e'|[]]; simpl.
  - intros H. exists x. auto.
  - rewrite in_app_iff. intros [H|H].
    + exists x. auto.
    + destruct (IH H) as [y [I T]]. exists y. auto.
Qed.

Lemma rounds_trace_all (l : list X) (x : X) (ev : event) :
  snd (run_rounds tr res l) = inr tt -> In x l -> In ev (tr x) ->
  In ev (fst (run_rounds tr res l)).
Proof.
  induction l as [|y l IH]; simpl; [tauto|].
  destruct (res y) as [e'|[]]; simpl; [discriminate|].
  intros R [->|I] T; apply in_app_iff; [now left|right; auto].
Qed.

End PureLoops.

(** ** [detect_anomalies] *)

Lemma check_pattern_outcome (site : SiteInformation) (rule : string * string)
    (s : SitesInformation) :
  check_pattern site rule s = Outcome (rule_trace site rule) s (rule_result site rule).
Proof.
  destruct rule as [key pattern].
  unfold check_pattern, Dict.mem, subscript, rule_trace, rule_result. simpl.
  destruct (Dict.get (information site) key) as [value|]; [|reflexivity].
  simpl lift. rewrite bind_ret.
  destruct (re_match pattern value) as [e|[|]]; reflexivity.
Qed.

Lemma detect_anomalies_outcome (self : SitesInformation) :
  detect_anomalies self
  = Outcome (fst (run_rounds (fun site => fst (site_rounds site))
                             (fun site => snd (site_rounds site))
                             (Dict.values (sites self))))
            self
            (snd (run_rounds (fun site => fst (site_rounds site))
                             (fun site => snd (site_rounds site))
                             (Dict.values (sites self)))).
Proof.
  unfold detect_anomalies.
  erewrite bind_inr by reflexivity. cbn zeta.
  rewrite (for_rounds (fun site => fst (site_rounds site))
                      (fun site => snd (site_rounds site))).
  - reflexivity.
  - intros site. apply for_rounds. intros rule. apply check_pattern_outcome.
Qed.

Lemma re_match_patterns (rule : string * string) :
  In rule patterns ->
  exists items, forall value,
    re_match (snd rule) value
    = match value with
      | JStr s => inr (Re.match_here items s true)
      | _ => inl TypeError
      end.
Proof.
  intros [<-|[<-|[]]]; eexists; intros value; unfold re_match;
    match goal with |- context [Re.compile ?p] =>
      let c := eval vm_compute in (Re.compile p) in
      change (Re.compile p) with c
    end; cbv beta iota; reflexivity.
Qed.

Lemma rule_result_str (site : SiteInformation) (rule : string * string) :
  In rule patterns ->
  rule_result site rule
  = match Dict.get (information site) (fst rule) with
    | Some value => if is_str value then inr tt else inl TypeError
    | None => inr tt
    end.
Proof.
  intros I. destruct (re_match_patterns rule I) as [items H].
  unfold rule_result. destruct (Dict.get _ _) as [value|]; [|reflexivity].
  rewrite H. now destruct value.
Qed.

Lemma rules_result_str (site : SiteInformation) (l : list (string * string)) :
  incl l patterns ->
  snd (run_rounds (rule_trace site) (rule_result site) l)
  = if forallb (fun rule : string * string =>
                  match Dict.get (information site) (fst rule) with
                  | Some value => is_str value
                  | None => true
                  end) l
    then inr tt else inl TypeError.
Proof.
  induction l as [|rule l IH]; intros H; simpl; [reflexivity|].
  rewrite rule_result_str by (apply H; now left).
  assert (H' : incl l patterns) by (intros r I; apply H; now right).
  destruct (Dict.get (information site) (fst rule)) as [value|]; simpl; auto.
  destruct (is_str value); simpl; auto.
Qed.

Lemma site_result_str (site : SiteInformation) :
  snd (site_rounds site)
  = if checked_values_are_str site then inr tt else inl TypeError.
Proof. apply rules_result_str, incl_refl. Qed.

(** ** [_initialize_sites] *)

Section BuildFacts.
Variable urandom : nat -> Byte.byte.

Lemma construct_site_outcome (site_name : string) (entry : json)
    (s : SitesInformation) :
  construct_site urandom site_name entry s
  = match entry with
    | JDict d =>
        match missing_field d with
        | Some field => Outcome [] s (inl (KeyError field))
        | None =>
            match site_of_entry urandom site_name entry with
            | Some site =>
                Outcome [] {| sites := Dict.set (sites s) site_name site |} (inr tt)
            | None => Outcome [] s (inl TypeError)
            end
        end
    | _ => Outcome [] s (inl TypeError)
    end.
Proof.
  destruct entry as [| | | | | |d]; try reflexivity.
  unfold construct_site, missing_field, site_of_entry, subscript, Dict.mem.
  simpl find.
  destruct (Dict.get d "urlMain") as [h|]; simpl; [|reflexivity].
  rewrite bind_ret.
  destruct (Dict.get d "url") as [u|]; simpl; [|reflexivity].
  rewrite bind_ret.
  destruct (Dict.get d "username_claimed") as [c|]; simpl; [|reflexivity].
  rewrite bind_ret. erewrite bind_inr by reflexivity. reflexivity.
Qed.

Lemma round_outcome (site_data : Dict.dict json) (site_name : string)
    (entry : json) (s : SitesInformation) :
  Dict.get site_data site_name = Some entry ->
  round urandom site_data site_name s
  = match entry with
    | JDict d =>
        match missing_field d with
        | Some field =>
            Outcome [] s (inl (ValueError (missing_attribute_message (KeyError field))))
        | None =>
            match site_of_entry urandom site_name entry with
            | Some site =>
                Outcome [] {| sites := Dict.set (sites s) site_name site |} (inr tt)
            | None => Outcome [Print (skip_message site_name)] s (inr tt)
            end
        end
    | _ => Outcome [Print (skip_message site_name)] s (inr tt)
    end.
Proof.
  intros Hget. unfold round, try_except, subscript. rewrite Hget. simpl lift.
  rewrite bind_ret, construct_site_outcome.
  destruct entry as [| | | | | |d]; try reflexivity.
  destruct (missing_field d) as [field|]; [reflexivity|].
  destruct (site_of_entry urandom site_name (JDict d)); reflexivity.
Qed.

Lemma complete_site_of_entry (site_name : string) (d : Dict.dict json) :
  missing_field d = None -> exists site, site_of_entry urandom site_name (JDict d) = Some site.
Proof.
  unfold missing_field, site_of_entry, Dict.mem. simpl.
  destruct (Dict.get d "urlMain"); simpl; [|discriminate].
  destruct (Dict.get d "url"); simpl; [|discriminate].
  destruct (Dict.get d "username_claimed"); simpl; [|discriminate].
  eauto.
Qed.

Lemma site_of_entry_valid (site_name : string) (entry : json) :
  site_of_entry urandom site_name entry = None <-> valid_entry entry = false.
Proof.
  destruct entry as [| | | | | |d]; simpl; try tauto.
  unfold missing_field, Dict.mem. simpl.
  destruct (Dict.get d "urlMain"); simpl; [|tauto].
  destruct (Dict.get d "url"); simpl; [|tauto].
  destruct (Dict.get d "username_claimed"); simpl; [|tauto].
  split; discriminate.
Qed.

Lemma keys_built (site_data : Dict.dict json) :
  Dict.keys (built urandom site_data)
  = Dict.keys (filter (fun e => valid_entry (snd e)) site_data).
Proof.
  induction site_data as [|[k v] l IH]; simpl; [reflexivity|].
  unfold built_entry. simpl.
  destruct (site_of_entry urandom k v) eqn:E; destruct (valid_entry v) eqn:V; simpl.
  - now rewrite <- IH.
  - apply (proj2 (site_of_entry_valid k v)) in V. congruence.
  - apply (proj1 (site_of_entry_valid k v)) in E. congruence.
  - exact IH.
Qed.

Lemma keys_built_in (site_data : Dict.dict json) (k : string) :
  In k (Dict.keys (built urandom site_data)) -> In k (Dict.keys site_data).
Proof. rewrite keys_built. apply keys_filter_in. Qed.

(** The loop over a part [entries] of the data set in which no mapping
    lacks a required field. *)
Lemma initialize_loop (site_data : Dict.dict json) :
  forall (entries : Dict.dict json) (s : SitesInformation),
    (forall k v, In (k, v) entries -> Dict.get site_data k = Some v) ->
    NoDup (Dict.keys entries) ->
    (forall k, In k (Dict.keys entries) -> ~ In k (Dict.keys (sites s))) ->
    Forall (fun e => incomplete (snd e) = false) entries ->
    for_ (Dict.keys entries) (round urandom site_data) s
    = Outcome (skipped entries) {| sites := sites s ++ built urandom entries |} (inr tt).
Proof.
  induction entries as [|[k v] entries IH]; intros s Hget Hnd Hfresh Hall; simpl.
  - rewrite app_nil_r. now destruct s.
  - inversion Hnd as [|? ? Hnin Hnd']; subst.
    inversion Hall as [|? ? Hv Hall']; subst. simpl in Hv.
    assert (Hget' : forall k' v', In (k', v') entries -> Dict.get site_data k' = Some v')
      by (intros k' v' I; apply Hget; now right).
    unfold skipped, built. simpl. unfold built_entry at 1. simpl.
    pose proof (round_outcome site_data k v s (Hget k v (or_introl eq_refl))) as R.
    destruct v as [| | | | | |d].
    1-6: erewrite bind_inr by exact R; cbn zeta.
    1-6: rewrite IH;
           [ reflexivity | exact Hget' | exact Hnd'
           | intros k' I; apply Hfresh; now right | exact Hall' ].
    simpl in Hv.
    destruct (missing_field d) as [field|] eqn:Hm; [discriminate|].
    destruct (complete_site_of_entry k d Hm) as [site Hs].
    rewrite Hs in R |- *.
    erewrite bind_inr by exact R. cbn zeta. rewrite IH; auto.
    + simpl. rewrite set_fresh by (apply Hfresh; now left).
      now rewrite <- app_assoc.
    + simpl sites. rewrite set_fresh by (apply Hfresh; now left).
      intros k' I. rewrite keys_app, in_app_iff. simpl.
      intros [J|[J|[]]]; [revert J; apply Hfresh; now right|].
      subst k'. contradiction.
Qed.

Lemma bind_ext {S A B} (m : M S A) (f g : A -> M S B) (s : S) :
  (forall a s', f a s' = g a s') -> bind m f s = bind m g s.
Proof. intros H. unfold bind. destruct (result (m s)); now rewrite ?H. Qed.

Lemma for_app {S X} (body : X -> M S unit) (l1 l2 : list X) (s : S) :
  for_ (l1 ++ l2) body s = bind (for_ l1 body) (fun _ => for_ l2 body) s.
Proof.
  revert s. induction l1 as [|x l1 IH]; intros s; simpl.
  - now rewrite bind_ret.
  - rewrite bind_assoc. apply bind_ext. intros _ s'. apply IH.
Qed.

(** The first incomplete mapping ends the loop with [ValueError]. *)
Lemma initialize_loop_abort (site_data pre post : Dict.dict json)
    (site_name field : string) (d : Dict.dict json) :
  Dict.wf site_data ->
  site_data = pre ++ (site_name, JDict d) :: post ->
  Forall (fun e => incomplete (snd e) = false) pre ->
  missing_field d = Some field ->
  _initialize_sites urandom site_data {| sites := [] |}
  = Outcome (skipped pre) {| sites := built urandom pre |}
            (inl (ValueError (missing_attribute_message (KeyError field)))).
Proof.
  intros Hwf E Hpre Hm. unfold _initialize_sites.
  change (for_ (Dict.keys site_data) (round urandom site_data) {| sites := [] |} = 
          Outcome (skipped pre) {| sites := built urandom pre |}
            (inl (ValueError (missing_attribute_message (KeyError field))))).
  assert (Hget : forall k v, In (k, v) site_data -> Dict.get site_data k = Some v)
    by (intros k v; now apply get_in_wf).
  unfold Dict.wf in Hwf. rewrite E in Hwf at 1. rewrite E at 1.
  rewrite keys_app in *. apply NoDup_app_remove_r in Hwf.
  rewrite for_app. erewrite bind_inr.
  2: { apply initialize_loop; auto.
       intros k v I. apply Hget. rewrite E. apply in_app_iff. now left. }
  cbn zeta. simpl Dict.keys. simpl for_.
  erewrite bind_inl.
  2: { rewrite (round_outcome site_data site_name (JDict d)).
       - rewrite Hm. reflexivity.
       - apply Hget. rewrite E. apply in_app_iff. right. now left. }
  simpl. now rewrite app_nil_r.
Qed.

Lemma initialize_sites_complete (site_data : Dict.dict json) :
  Dict.wf site_data ->
  Forall (fun e => incomplete (snd e) = false) site_data ->
  _initialize_sites urandom site_data {| sites := [] |}
  = Outcome (skipped site_data) {| sites := built urandom site_data |} (inr tt).
Proof.
  intros Hwf Hall.
  change (for_ (Dict.keys site_data) (round urandom site_data) {| sites := [] |}
          = Outcome (skipped site_data) {| sites := built urandom site_data |} (inr tt)).
  rewrite initialize_loop; auto.
  intros k v. now apply get_in_wf.
Qed.

(** Either no mapping is incomplete or there is a first one that is. *)
Lemma first_incomplete (site_data : Dict.dict json) :
  Forall (fun e => incomplete (snd e) = false) site_data
  \/ exists pre site_name d post field,
       site_data = pre ++ (site_name, JDict d) :: post
       /\ Forall (fun e => incomplete (snd e) = false) pre
       /\ missing_field d = Some field.
Proof.
  induction site_data as [|[k v] l IH]; [left; constructor|].
  destruct (incomplete v) eqn:E.
  - right. destruct v as [| | | | | |d]; try discriminate. simpl in E.
    destruct (missing_field d) as [field|] eqn:Hm; [|discriminate].
    exists [], k, d, l, field. auto.
  - destruct IH as [IH|(pre & n & d & post & field & -> & Hpre & Hm)].
    + left. constructor; auto.
    + right. exists ((k, v) :: pre), n, d, post, field. repeat split; auto.
Qed.

End BuildFacts.

(** ** Diagnostics name their site and field *)

Lemma list_ascii_of_append (a b : string) :
  list_ascii_of_string (a ++ b)
  = list_ascii_of_string a ++ list_ascii_of_string b.
Proof. induction a as [|c a IH]; simpl; [reflexivity|]. now rewrite IH. Qed.

Lemma list_ascii_of_string_inj (a b : string) :
  list_ascii_of_string a = list_ascii_of_string b -> a = b.
Proof.
  intros H. rewrite <- (string_of_list_ascii_of_string a), H.
  apply string_of_list_ascii_of_string.
Qed.

Lemma anomaly_message_inj (n n' k k' : string) :
  In k (map fst patterns) -> In k' (map fst patterns) ->
  anomaly_message n k = anomaly_message n' k' -> n = n' /\ k = k'.
Proof.
  intros Hk Hk' H. unfold anomaly_message in H.
  apply (f_equal list_ascii_of_string) in H.
  rewrite !list_ascii_of_append in H. apply app_inv_head in H.
  simpl in Hk, Hk'.
  destruct Hk as [<-|[<-|[]]]; destruct Hk' as [<-|[<-|[]]];
    try (apply app_inv_tail in H; apply list_ascii_of_string_inj in H; now split);
    exfalso; apply (f_equal (@rev ascii)) in H;
    rewrite !rev_app_distr in H; simpl in H; discriminate.
Qed.

Lemma Print_inj (a b : string) : Print a = Print b -> a = b.
Proof. intros H. now injection H. Qed.

Lemma rule_trace_in (site : SiteInformation) (rule : string * string) (ev : event) :
  In ev (rule_trace site rule) ->
  ev = Print (anomaly_message (name site) (fst rule))
  /\ exists value, Dict.get (information site) (fst rule) = Some value
                   /\ re_match (snd rule) value = inr false.
Proof.
  unfold rule_trace. destruct (Dict.get _ _) as [value|]; [|intros []].
  destruct (re_match (snd rule) value) as [e|[|]] eqn:E;
    [intros []|intros []|].
  intros [<-|[]]. eauto.
Qed.

Lemma values_in {V} (d : Dict.dict V) (v : V) :
  In v (Dict.values d) -> exists k, In (k, v) d.
Proof.
  unfold Dict.values. rewrite in_map_iff. intros [[k v'] [E I]].
  simpl in E. subst. eauto.
Qed.

Lemma catalog_site_unique (self : SitesInformation) (site site' : SiteInformation) :
  catalog_ok self ->
  In site (Dict.values (sites self)) -> In site' (Dict.values (sites self)) ->
  name site = name site' -> site = site'.
Proof.
  intros [Hwf Hn] I I' E.
  destruct (values_in _ _ I) as [k Hk]. destruct (values_in _ _ I') as [k' Hk'].
  rewrite Forall_forall in Hn.
  pose proof (Hn _ Hk) as N1. pose proof (Hn _ Hk') as N2.
  unfold named in *. simpl in *.
  assert (K : k = k') by congruence. rewrite <- K in Hk'.
  exact (wf_unique (sites self) k site site' Hwf Hk Hk').
Qed.

(** ** The default token *)

Lemma b64_char_urlsafe (i : N) :
  (i < 64)%N ->
  Secrets.is_urlsafe (Secrets.urlsafe_char (Secrets.b64_char i)) = true
  /\ Ascii.eqb (Secrets.urlsafe_char (Secrets.b64_char i)) "=" = false.
Proof.
  intros H.
  assert (A : forallb (fun c => Secrets.is_urlsafe (Secrets.urlsafe_char c)
                                && negb (Ascii.eqb (Secrets.urlsafe_char c) "="))
                      Secrets.b64_alphabet = true) by (vm_compute; reflexivity).
  rewrite forallb_forall in A.
  specialize (A (Secrets.b64_char i)).
  unfold Secrets.b64_char in *.
  assert (I : In (nth (N.to_nat i) Secrets.b64_alphabet "="%char) Secrets.b64_alphabet).
  { apply nth_In. change (List.length Secrets.b64_alphabet) with 64%nat. lia. }
  apply A in I. apply andb_true_iff in I. destruct I as [I1 I2].
  split; [exact I1|]. now apply negb_true_iff in I2.
Qed.

Lemma sextet_bounds (a b : N) :
  (a <= 255)%N -> (b <= 255)%N ->
  (a / 4 < 64)%N /\ (a mod 4 * 16 + b / 16 < 64)%N
  /\ (a mod 16 * 4 + b / 64 < 64)%N /\ (a mod 64 < 64)%N
  /\ (a mod 4 * 16 < 64)%N.
Proof.
  intros Ha Hb.
  assert (a / 4 < 64)%N by (apply N.Div0.div_lt_upper_bound; lia).
  assert (b / 16 < 16)%N by (apply N.Div0.div_lt_upper_bound; lia).
  assert (b / 64 < 4)%N by (apply N.Div0.div_lt_upper_bound; lia).
  assert (a mod 4 < 4)%N by (apply N.mod_lt; lia).
  assert (a mod 16 < 16)%N by (apply N.mod_lt; lia).
  assert (a mod 64 < 64)%N by (apply N.mod_lt; lia).
  lia.
Qed.

Lemma token_of_ten_bytes (tok : list N) :
  List.length tok = 10%nat -> Forall (fun b => (b <= 255)%N) tok ->
  String.length (Secrets.rstrip "=" (Secrets.urlsafe_b64encode tok)) = 14%nat
  /\ Secrets.all_chars Secrets.is_urlsafe
       (Secrets.rstrip "=" (Secrets.urlsafe_b64encode tok)) = true.
Proof.
  intros Hlen Hb.
  do 10 (destruct tok as [|? tok]; [discriminate|]).
  destruct tok; [|discriminate]. clear Hlen.
  repeat match goal with
         | H : Forall _ (_ :: _) |- _ => inversion H; subst; clear H
         | H : Forall _ [] |- _ => clear H
         end.
  unfold Secrets.urlsafe_b64encode.
  cbn [Secrets.b64encode Secrets.translate].
  repeat match goal with
         | |- context [Secrets.urlsafe_char (Secrets.b64_char ?i)] =>
             let c := fresh "c" in
             let U := fresh "U" in
             let Q := fresh "Q" in
             let P := fresh "P" in
             assert (i < 64)%N as U by
                 (match goal with
                  | Ha : (?a <= 255)%N, Hb : (?b <= 255)%N |- _ =>
                      solve [apply (sextet_bounds a b Ha Hb)]
                  end);
             destruct (b64_char_urlsafe i U) as [Q P]; clear U;
             set (c := Secrets.urlsafe_char (Secrets.b64_char i)) in *;
             clearbody c
         end.
  change (Secrets.urlsafe_char "=") with "="%char.
  cbn [Secrets.rstrip Ascii.eqb Bool.eqb].
  repeat match goal with
         | H : Ascii.eqb _ _ = false |- _ => rewrite ?H; clear H
         end.
  cbn [String.length Secrets.all_chars].
  repeat match goal with
         | H : Secrets.is_urlsafe _ = true |- _ => rewrite ?H; clear H
         end.
  split; reflexivity.
Qed.

(** ** Built catalogs *)

Section BuiltFacts.
Variable urandom : nat -> Byte.byte.

Lemma built_in (site_data : Dict.dict json) (k : string) (site : SiteInformation) :
  In (k, site) (built urandom site_data) ->
  exists entry, In (k, entry) site_data /\ site_of_entry urandom k entry = Some site.
Proof.
  unfold built. rewrite in_flat_map. intros [[k' v] [I B]].
  unfold built_entry in B. simpl in B.
  destruct (site_of_entry urandom k' v) as [site'|] eqn:E; [|destruct B].
  destruct B as [B|[]]. injection B as -> ->. eauto.
Qed.

Lemma site_of_entry_fields (k : string) (entry : json) (site : SiteInformation) :
  site_of_entry urandom k entry = Some site ->
  name site = k
  /\ entry = JDict (information site)
  /\ Dict.get (information site) "urlMain" = Some (url_home site)
  /\ Dict.get (information site) "url" = Some (url_username_format site)
  /\ Dict.get (information site) "username_claimed" = Some (username_claimed site)
  /\ is_nsfw site = get_default (information site) "isNSFW" (JBool false)
  /\ username_unclaimed site = username_unclaimed_default urandom.
Proof.
  destruct entry as [| | | | | |d]; try discriminate. unfold site_of_entry.
  destruct (Dict.get d "urlMain") as [h|] eqn:H1; [|discriminate].
  destruct (Dict.get d "url") as [u|] eqn:H2; [|discriminate].
  destruct (Dict.get d "username_claimed") as [c|] eqn:H3; [|discriminate].
  intros E. injection E as <-. simpl. auto 10.
Qed.

Lemma built_catalog_ok (site_data : Dict.dict json) :
  Dict.wf site_data -> catalog_ok {| sites := built urandom site_data |}.
Proof.
  intros Hwf. split; simpl.
  - unfold Dict.wf. rewrite keys_built. now apply wf_filter.
  - rewrite Forall_forall. intros [k site] I.
    destruct (built_in _ _ _ I) as [entry [_ E]].
    apply site_of_entry_fields in E. unfold named. simpl. tauto.
Qed.

(** A build that returns met no incomplete mapping. *)
Lemma initialize_sites_returns (site_data : Dict.dict json) :
  Dict.wf site_data ->
  result (_initialize_sites urandom site_data {| sites := [] |}) = inr tt ->
  Forall (fun e => incomplete (snd e) = false) site_data.
Proof.
  intros Hwf R.
  destruct (first_incomplete site_data)
    as [Hall|(pre & n & d & post & field & E & Hpre & Hm)]; [exact Hall|].
  rewrite (initialize_loop_abort urandom site_data pre post n field d) in R; auto.
  discriminate.
Qed.

Lemma complete_valid_mapping (site_data : Dict.dict json) :
  Forall (fun e => incomplete (snd e) = false) site_data ->
  filter (fun e => valid_entry (snd e)) site_data
  = filter (fun e => is_mapping (snd e)) site_data.
Proof.
  intros Hall. apply filter_ext_in. intros [k v] I.
  rewrite Forall_forall in Hall. specialize (Hall _ I). simpl in *.
  destruct v; try reflexivity. simpl in *. now destruct (missing_field d).
Qed.

End BuiltFacts.

(** ** The constructor establishes the catalog invariant *)

Lemma keys_pop_in {V} (d : Dict.dict V) (k k' : string) :
  In k' (Dict.keys (Dict.pop d k)) -> In k' (Dict.keys d).
Proof.
  induction d as [|[k0 v] d IH]; simpl; [tauto|].
  destruct (String.eqb k k0); simpl; tauto.
Qed.

Lemma wf_pop {V} (d : Dict.dict V) (k : string) : Dict.wf d -> Dict.wf (Dict.pop d k).
Proof.
  unfold Dict.wf. induction d as [|[k0 v] d IH]; simpl; [auto|].
  intros Hwf. inversion Hwf as [|? ? Hnin Hnd]; subst.
  destruct (String.eqb k k0); simpl; [exact Hnd|].
  constructor; [|auto]. intros I. apply Hnin. eapply keys_pop_in; eauto.
Qed.

Lemma SitesInformation_init_ok
    (urandom : nat -> Byte.byte) (requests_get open_json : string -> reply)
    (data_file_path : option string) (io : list event) (self : SitesInformation) :
  parsed_ok requests_get -> parsed_ok open_json ->
  SitesInformation_init urandom requests_get open_json data_file_path
  = (io, inr self) ->
  catalog_ok self.
Proof.
  intros Hnet Hfs. unfold SitesInformation_init.
  set (path := match data_file_path with
               | Some p => if PyStr.nonempty p then p else default_data_file_path
               | None => default_data_file_path
               end).
  destruct (negb (PyStr.endswith (PyStr.lower path) ".json")); [discriminate|].
  assert (Hload : forall site_data,
             snd (load requests_get open_json path) = inr (JDict site_data) ->
             Dict.wf site_data).
  { unfold load. intros site_data.
    destruct (PyStr.startswith (PyStr.lower path) "http"); simpl.
    - destruct (requests_get path) eqn:E; try discriminate.
      intros H. injection H as ->. eapply Hnet; eauto.
    - destruct (open_json path) eqn:E; try discriminate.
      intros H. injection H as ->. eapply Hfs; eauto. }
  destruct (load requests_get open_json path) as [io' [e|site_data]];
    [discriminate|].
  destruct site_data as [| | | | | |d]; try discriminate. simpl pop_schema.
  cbv iota. specialize (Hload d eq_refl).
  assert (Hwf : Dict.wf (Dict.pop d "$schema")) by now apply wf_pop.
  destruct (result (_initialize_sites urandom (Dict.pop d "$schema") {| sites := [] |}))
    as [e|[]] eqn:R; [discriminate|].
  intros H. injection H as _ <-.
  apply (initialize_sites_returns urandom _ Hwf) in R.
  rewrite initialize_sites_complete by assumption. simpl.
  now apply built_catalog_ok.
Qed.

(** ** The patterns on sample subjects *)

Example url_pattern_items :
  Re.compile "^https?://\S+\.\S+$"
  = Some [Re.Bol; Re.Atom (Re.Lit "h") Re.One; Re.Atom (Re.Lit "t") Re.One;
          Re.Atom (Re.Lit "t") Re.One; Re.Atom (Re.Lit "p") Re.One;
          Re.Atom (Re.Lit "s") Re.Opt; Re.Atom (Re.Lit ":") Re.One;
          Re.Atom (Re.Lit "/") Re.One; Re.Atom (Re.Lit "/") Re.One;
          Re.Atom (Re.Space false) Re.Plus; Re.Atom (Re.Lit ".") Re.One;
          Re.Atom (Re.Space false) Re.Plus; Re.Eol].
Proof. reflexivity. Qed.

Example word_pattern_items :
  Re.compile "^\w+$" = Some [Re.Bol; Re.Atom Re.Word Re.Plus; Re.Eol].
Proof. reflexivity. Qed.

Example url_pattern_subjects :
  map (fun s => re_match "^https?://\S+\.\S+$" (JStr s))
      ["https://a.com/{}"; "http://a.b"; "not a url"; "ftp://a.b";
       "https://a b.c"; "http://."; "x.org/{}";
       ("http://a.b" ++ PyStr.nl)%string; ("http://a.b" ++ PyStr.nl ++ "x")%string]
  = map inr [true; true; false; false; false; false; false; true; false].
Proof. vm_compute. reflexivity. Qed.

Example word_pattern_subjects :
  map (fun s => re_match "^\w+$" (JStr s)) ["admin"; "ad_min9"; "a-b"; ""; "a b"]
  = map inr [true; true; false; false; false].
Proof. vm_compute. reflexivity. Qed.

Example casefold_subjects :
  PyStr.casefold "X" = PyStr.casefold "x"
  /\ PyStr.lower "Data.JSON" = "data.json"
  /\ PyStr.endswith (PyStr.lower "Data.JSON") ".json" = true
  /\ PyStr.endswith (PyStr.lower "data.csv") ".json" = false.
Proof. repeat split. Qed.


(** ** Sample inputs are well formed *)

Ltac solve_wf :=
  unfold Dict.wf; simpl;
  repeat (constructor; [simpl; intuition discriminate|]); constructor.

Lemma sample_data_wf : Dict.wf sample_data.
Proof. solve_wf. Qed.

Lemma sample_catalog_ok : catalog_ok (catalog_of sample_data).
Proof.
  unfold catalog_of. rewrite initialize_sites_complete.
  - apply built_catalog_ok, sample_data_wf.
  - apply sample_data_wf.
  - repeat constructor.
Qed.

(** * The claims *)




(** C2, as amended.  A record constructed without an unclaimed user name
    gets the URL-safe token that [secrets.token_urlsafe(10)] makes from
    the entropy source: the unpadded URL-safe base64 text of 10 bytes that
    [os.urandom] hands out in a row, which is 14 characters long, each a
    letter, a digit, [-] or [_]. *)
Theorem default_unclaimed_username
    (urandom : nat -> Byte.byte) (site_name : string)
    (url_home url_username_format username_claimed : json)
    (information : Dict.dict json) (is_nsfw : json) :
  let site :=
    SiteInformation_init urandom site_name url_home url_username_format
      username_claimed information is_nsfw None in
  (exists pos : nat,
      username_unclaimed site = fst (Secrets.token_urlsafe urandom 10 pos)
      /\ username_unclaimed site
         = Secrets.rstrip "="
             (Secrets.urlsafe_b64encode
                (map (fun i => Byte.to_N (urandom i)) (seq pos 10))))
  /\ String.length (username_unclaimed site) = 14%nat
  /\ Secrets.all_chars Secrets.is_urlsafe (username_unclaimed site) = true.
Proof.
  cbn zeta. simpl username_unclaimed.
  unfold username_unclaimed_default, Secrets.token_urlsafe, Secrets.token_bytes.
  cbn [fst].
  set (tok := map (fun i => Byte.to_N (urandom i)) (seq 0 10)).
  assert (Hlen : List.length tok = 10%nat) by reflexivity.
  assert (Hb : Forall (fun b => (b <= 255)%N) tok).
  { apply Forall_forall. intros b I. apply in_map_iff in I.
    destruct I as [i [<- _]]. apply Byte.to_N_bounded. }
  split; [exists 0%nat; split; reflexivity|]. now apply token_of_ten_bytes.
Qed.

(** C2, the claim as stated fails: the token is 14 characters long, not
    10, and two records built one after the other from an entropy source
    whose bytes all differ carry the same token. *)
Lemma default_token_is_shared :
  map (fun site => (name site, username_unclaimed site))
      (Dict.values (sites (catalog_of sample_data)))
  = [("SiteA", "AAECAwQFBgcICQ"); ("x", "AAECAwQFBgcICQ")]
  /\ String.length "AAECAwQFBgcICQ" = 14%nat.
Proof. split; vm_compute; reflexivity. Qed.

(** C3.  On a raw data set, [_initialize_sites] aborts with the
    [ValueError] that names the missing attribute as soon as a mapping
    lacks a required field; otherwise it returns, the catalog has as many
    entries as the data set has valid entries, every mapping of the data
    set has its record, in order, and every entry that is no mapping is
    reported as skipped. *)
Theorem initialize_sites_size
    (urandom : nat -> Byte.byte) (site_data : Dict.dict json) :
  Dict.wf site_data ->
  let o := _initialize_sites urandom site_data {| sites := [] |} in
  ((exists site_name d,
       In (site_name, JDict d) site_data /\ missing_field d <> None) ->
   exists site_name d field,
     In (site_name, JDict d) site_data
     /\ missing_field d = Some field
     /\ result o = inl (ValueError (missing_attribute_message (KeyError field))))
  /\ ((forall site_name d,
          In (site_name, JDict d) site_data -> missing_field d = None) ->
      result o = inr tt
      /\ List.length (sites (final o))
         = List.length (filter (fun e => valid_entry (snd e)) site_data)
      /\ Dict.keys (sites (final o))
         = Dict.keys (filter (fun e => is_mapping (snd e)) site_data)
      /\ trace o = skipped site_data).
Proof.
  intros Hwf. cbn zeta.
  destruct (first_incomplete site_data)
    as [Hall|(pre & n & d & post & field & E & Hpre & Hm)].
  - split.
    + intros (n & d & I & Hm). exfalso. rewrite Forall_forall in Hall.
      specialize (Hall _ I). simpl in Hall.
      destruct (missing_field d); [discriminate|]. now apply Hm.
    + intros _. rewrite initialize_sites_complete by assumption. simpl.
      repeat split.
      * rewrite <- (length_map fst). fold (Dict.keys (built urandom site_data)).
        rewrite keys_built. unfold Dict.keys. now rewrite length_map.
      * rewrite keys_built. now rewrite complete_valid_mapping.
  - assert (I : In (n, JDict d) site_data).
    { rewrite E. apply in_app_iff. right. now left. }
    split.
    + intros _. exists n, d, field. repeat split; auto.
      now rewrite (initialize_loop_abort urandom site_data pre post n field d).
    + intros H. specialize (H _ _ I). congruence.
Qed.

Lemma initialize_sites_size_witness :
  result (_initialize_sites count_up sample_data {| sites := [] |}) = inr tt
  /\ List.length (sites (catalog_of sample_data)) = 2%nat
  /\ Dict.keys (sites (catalog_of sample_data)) = ["SiteA"; "x"]
  /\ trace (_initialize_sites count_up sample_data {| sites := [] |})
     = [Print (skip_message "Broken")].
Proof.
  refine (proj2 (initialize_sites_size count_up sample_data _) _).
  - unfold Dict.wf. simpl.
    repeat (constructor; [simpl; intuition discriminate|]). constructor.
  - intros site_name d [H|[H|[H|[]]]]; inversion H; reflexivity.
Defined.

(** The text of the fatal error. *)
Example missing_attribute_text :
  missing_attribute_message (KeyError "urlMain")
  = "Problem parsing json contents: Missing attribute 'urlMain'.".
Proof. reflexivity. Qed.

(** C4, as amended.  [detect_anomalies] changes no record and no entry of
    any catalog, whatever the values stored.  It returns when every value
    that a rule reads (under [url] and [username_claimed]) is a string; a
    value of another type makes [re.match] raise [TypeError]. *)
Theorem detect_anomalies_reports_only (self : SitesInformation) :
  final (detect_anomalies self) = self
  /\ (forallb checked_values_are_str (Dict.values (sites self)) = true ->
      result (detect_anomalies self) = inr tt)
  /\ (forallb checked_values_are_str (Dict.values (sites self)) = false ->
      result (detect_anomalies self) = inl TypeError).
Proof.
  rewrite detect_anomalies_outcome. simpl final. simpl result.
  split; [reflexivity|].
  induction (Dict.values (sites self)) as [|site l [IH1 IH2]]; simpl.
  - split; [reflexivity|discriminate].
  - rewrite site_result_str.
    destruct (checked_values_are_str site); simpl.
    + split; assumption.
    + split; [discriminate|reflexivity].
Qed.

(** C4, the claim as stated fails: a user name that the data file gives as
    a number makes [detect_anomalies] raise. *)
Lemma detect_anomalies_raises :
  result (_initialize_sites count_up numeric_name_data {| sites := [] |}) = inr tt
  /\ map username_claimed (Dict.values (sites (catalog_of numeric_name_data)))
     = [JInt 123]
  /\ detect_anomalies (catalog_of numeric_name_data)
     = Outcome [] (catalog_of numeric_name_data) (inl TypeError).
Proof. repeat split; vm_compute; reflexivity. Qed.

(** C5, as amended.  A data file path that is not empty and does not end
    in ".json", whatever the case of its letters, makes the constructor
    raise [FileNotFoundError] before it fetches a URL or opens a file. *)
Theorem bad_extension_fails_before_io
    (urandom : nat -> Byte.byte) (requests_get open_json : string -> reply)
    (data_file_path : string) :
  data_file_path <> "" ->
  PyStr.endswith (PyStr.lower data_file_path) ".json" = false ->
  SitesInformation_init urandom requests_get open_json (Some data_file_path)
  = ([], inl (FileNotFoundError
                ("Incorrect JSON file extension for data file '"
                 ++ data_file_path ++ "'.")%string)).
Proof.
  intros Hne Hext. unfold SitesInformation_init.
  destruct data_file_path as [|c p]; [congruence|].
  cbn [PyStr.nonempty]. now rewrite Hext.
Qed.

(** C5, the claim as stated fails: the empty path does not end in ".json",
    yet it stands for the default URL, which is fetched. *)
Lemma empty_path_fetches_default :
  PyStr.endswith (PyStr.lower "") ".json" = false
  /\ SitesInformation_init count_up offline offline (Some "")
     = ([HttpGet default_data_file_path],
        inl (FileNotFoundError
               ("Problem while attempting to access data file URL '"
                ++ default_data_file_path ++ "': unreachable")%string)).
Proof. split; vm_compute; reflexivity. Qed.

Lemma bad_extension_fails_before_io_witness :
  SitesInformation_init count_up offline offline (Some "data.csv")
  = ([], inl (FileNotFoundError
                "Incorrect JSON file extension for data file 'data.csv'.")).
Proof.
  refine (bad_extension_fails_before_io count_up offline offline "data.csv" _ _).
  - discriminate.
  - reflexivity.
Defined.

(** C6.  Applying [remove_nsfw_sites] a second time with the same names
    leaves the catalog as the first application left it. *)
Theorem remove_nsfw_sites_idempotent
    (self : SitesInformation) (do_not_remove : list string) :
  Dict.wf (sites self) ->
  let once := remove_nsfw_sites do_not_remove self in
  let twice := remove_nsfw_sites do_not_remove (final once) in
  result once = inr tt /\ result twice = inr tt /\ final twice = final once.
Proof.
  intros Hwf. cbn zeta.
  rewrite (remove_nsfw_sites_filter do_not_remove self Hwf). cbn [final result].
  rewrite remove_nsfw_sites_filter by (cbn [sites]; now apply wf_filter).
  cbn [final result sites]. now rewrite filter_idem.
Qed.

Lemma remove_nsfw_sites_idempotent_witness :
  final (remove_nsfw_sites ["a"]
           (final (remove_nsfw_sites ["a"] (catalog_of sample_data))))
  = final (remove_nsfw_sites ["a"] (catalog_of sample_data)).
Proof.
  refine (proj2 (proj2 (remove_nsfw_sites_idempotent (catalog_of sample_data) ["a"] _))).
  exact (proj1 sample_catalog_ok).
Defined.

(** C7.  [remove_nsfw_sites] removes exactly the records whose NSFW flag
    is true and whose case-folded name is not among the case-folded names
    to keep.  So a site named "x" stays when "X" is to be kept, and a
    record that is not flagged stays. *)
Theorem remove_nsfw_sites_exact
    (self : SitesInformation) (do_not_remove : list string) :
  catalog_ok self ->
  let after := final (remove_nsfw_sites do_not_remove self) in
  (forall site,
      In site (Dict.values (sites after))
      <-> In site (Dict.values (sites self))
          /\ ~ (truthy (is_nsfw site) = true
                /\ ~ In (PyStr.casefold (name site))
                        (map PyStr.casefold do_not_remove)))
  /\ (forall site,
         In "X" do_not_remove -> name site = "x" ->
         In site (Dict.values (sites self)) -> In site (Dict.values (sites after)))
  /\ (forall site,
         truthy (is_nsfw site) = false ->
         In site (Dict.values (sites self)) -> In site (Dict.values (sites after)))
  /\ catalog_ok after.
Proof.
  intros Hok. cbn zeta.
  rewrite (remove_nsfw_sites_filter do_not_remove self (proj1 Hok)). simpl final.
  assert (Hexact : forall site,
             In site (Dict.values (filter (kept do_not_remove) (sites self)))
             <-> In site (Dict.values (sites self))
                 /\ ~ (truthy (is_nsfw site) = true
                       /\ ~ In (PyStr.casefold (name site))
                               (map PyStr.casefold do_not_remove))).
  { intros site. split.
    - intros H. apply values_in in H. destruct H as [k I].
      apply filter_In in I. destruct I as [I K].
      pose proof (proj1 (Forall_forall _ _) (proj2 Hok) _ I) as N.
      unfold named in N. simpl in N. subst k. split.
      + apply (in_map snd) in I. exact I.
      + exact (proj1 (kept_spec do_not_remove _ _) K).
    - intros [H K]. apply values_in in H. destruct H as [k I].
      pose proof (proj1 (Forall_forall _ _) (proj2 Hok) _ I) as N.
      unfold named in N. simpl in N. subst k.
      apply (in_map snd) with (x := (name site, site)).
      apply filter_In. split; [exact I|].
      exact (proj2 (kept_spec do_not_remove _ _) K). }
  simpl sites. split; [exact Hexact|]. split; [|split].
  - intros site HX Hn I. apply Hexact. split; [exact I|].
    intros [_ H]. apply H. rewrite Hn.
    change (PyStr.casefold "x") with (PyStr.casefold "X"). now apply in_map.
  - intros site Hf I. apply Hexact. split; [exact I|]. intros [H _]. congruence.
  - apply (catalog_ok_filter (kept do_not_remove) self Hok).
Qed.

Lemma remove_nsfw_sites_exact_witness :
  map name (Dict.values (sites (final (remove_nsfw_sites ["X"] (catalog_of sample_data)))))
  = ["SiteA"; "x"]
  /\ map name (Dict.values (sites (final (remove_nsfw_sites [] (catalog_of sample_data)))))
     = ["SiteA"]
  /\ catalog_ok (final (remove_nsfw_sites ["X"] (catalog_of sample_data))).
Proof.
  split; [vm_compute; reflexivity|]. split; [vm_compute; reflexivity|].
  exact (proj2 (proj2 (proj2
           (remove_nsfw_sites_exact (catalog_of sample_data) ["X"] sample_catalog_ok)))).
Defined.

(** C8.  [site_name_list] returns the names of the current entries, each
    once, sorted by their lower-case forms, and changes nothing. *)
Theorem site_name_list_sorted (self : SitesInformation) :
  catalog_ok self ->
  exists names,
    site_name_list self = Outcome [] self (inr names)
    /\ Permutation (map name (Dict.values (sites self))) names
    /\ NoDup names
    /\ StronglySorted
         (fun a b => String.leb (PyStr.lower a) (PyStr.lower b) = true) names.
Proof.
  intros [Hwf Hn].
  exists (PyStr.sorted PyStr.lower (map name (Dict.values (sites self)))).
  repeat split.
  - unfold site_name_list. erewrite bind_inr by (now apply iter_sites_values).
    reflexivity.
  - apply sorted_perm.
  - eapply Permutation_NoDup; [apply sorted_perm|].
    now rewrite names_are_keys.
  - apply (sorted_sorted PyStr.lower).
Qed.

Lemma site_name_list_sorted_witness :
  exists names,
    site_name_list (catalog_of sample_data)
    = Outcome [] (catalog_of sample_data) (inr names)
    /\ Permutation (map name (Dict.values (sites (catalog_of sample_data)))) names
    /\ NoDup names
    /\ StronglySorted
         (fun a b => String.leb (PyStr.lower a) (PyStr.lower b) = true) names.
Proof. exact (site_name_list_sorted (catalog_of sample_data) sample_catalog_ok). Defined.

(** The sort is by lower-case form, not by code point. *)
Example site_name_list_mixed_case :
  result (site_name_list
            {| sites := map (fun n => (n, SiteInformation_init count_up n JNull JNull
                                            JNull [] JNull None))
                            ["b"; "C"; "a"; "B"] |})
  = inr ["a"; "b"; "B"; "C"].
Proof. vm_compute. reflexivity. Qed.

(** C10.  The [information] of a record made by [_initialize_sites] is the
    whole raw entry of its site, so it holds the required fields as the
    record has them, and the NSFW flag when the entry has one; the rule
    [url] of [detect_anomalies] therefore checks the username URL template. *)
Theorem information_is_raw_entry
    (urandom : nat -> Byte.byte) (site_data : Dict.dict json) :
  Dict.wf site_data ->
  let o := _initialize_sites urandom site_data {| sites := [] |} in
  result o = inr tt ->
  forall site, In site (Dict.values (sites (final o))) ->
    Dict.get site_data (name site) = Some (JDict (information site))
    /\ Dict.get (information site) "urlMain" = Some (url_home site)
    /\ Dict.get (information site) "url" = Some (url_username_format site)
    /\ Dict.get (information site) "username_claimed" = Some (username_claimed site)
    /\ (forall flag,
           Dict.get (information site) "isNSFW" = Some flag -> is_nsfw site = flag)
    /\ (forall pattern s,
           check_pattern site ("url", pattern) s
           = bind (lift (re_match pattern (url_username_format site)))
                  (fun matched =>
                     if negb matched
                     then print (anomaly_message (name site) "url")
                     else ret tt) s).
Proof.
  intros Hwf. cbn zeta. intros Hret site I.
  apply (initialize_sites_returns urandom _ Hwf) in Hret.
  rewrite initialize_sites_complete in I by assumption. simpl in I.
  apply values_in in I. destruct I as [k I].
  apply built_in in I. destruct I as [entry [Ie E]].
  apply site_of_entry_fields in E.
  destruct E as (En & Ee & H1 & H2 & H3 & H4 & _). subst k entry.
  repeat split; auto.
  - now apply get_in_wf.
  - intros flag Hf. rewrite H4. unfold get_default. now rewrite Hf.
  - intros pattern s. unfold check_pattern, Dict.mem, subscript.
    rewrite H2. simpl lift. now rewrite bind_ret.
Qed.

Lemma information_is_raw_entry_witness :
  Dict.get sample_data "x" = Some (JDict (information site_x))
  /\ Dict.get (information site_x) "urlMain" = Some (url_home site_x)
  /\ Dict.get (information site_x) "url" = Some (url_username_format site_x)
  /\ Dict.get (information site_x) "username_claimed"
     = Some (username_claimed site_x)
  /\ is_nsfw site_x = JBool true.
Proof.
  destruct (information_is_raw_entry count_up sample_data) with (site := site_x)
    as (H0 & H1 & H2 & H3 & H4 & _).
  - unfold Dict.wf. simpl.
    repeat (constructor; [simpl; intuition discriminate|]). constructor.
  - vm_compute. reflexivity.
  - vm_compute. right. left. reflexivity.
  - repeat split; auto.
Defined.

(** * Further properties *)

(** ** The patterns as languages *)

Lemma plus_item (cs : Re.cset) (rest : list Re.item) (s : string) (bos : bool) :
  Re.match_here (Re.Atom cs Re.Plus :: rest) s bos
  = plus_loop cs (fun t => Re.match_here rest t false) s.
Proof.
  simpl. induction s as [|c s IH]; [reflexivity|].
  simpl. now rewrite <- IH.
Qed.

Lemma plus_loop_spec (cs : Re.cset) (k : string -> bool) (s : string) :
  plus_loop cs k s = true
  <-> exists c a t,
        s = String c (a ++ t)%string
        /\ Re.cset_mem cs c = true
        /\ str_all (Re.cset_mem cs) a = true
        /\ k t = true.
Proof.
  split.
  - induction s as [|c s IH]; simpl; [discriminate|].
    rewrite andb_true_iff, orb_true_iff. intros [Hc [Hl|Hk]].
    + destruct (IH Hl) as (c' & a & t & -> & Hc' & Ha & Ht).
      exists c, (String c' a), t. simpl. rewrite Hc', Ha. auto.
    + exists c, EmptyString, s. auto.
  - intros (c & a & t & -> & Hc & Ha & Ht). revert c Hc.
    induction a as [|c' a IH]; intros c Hc; simpl.
    + rewrite Hc, Ht. apply orb_true_r.
    + simpl in Ha. apply andb_true_iff in Ha. destruct Ha as [Hc' Ha].
      rewrite Hc. simpl. apply orb_true_iff. left. now apply IH.
Qed.

Lemma at_end_spec (t : string) :
  Re.at_end t = true <-> t = EmptyString \/ t = PyStr.nl.
Proof.
  destruct t as [|c [|c' t]]; simpl.
  - split; auto.
  - split.
    + intros H. apply Ascii.eqb_eq in H. subst c. now right.
    + intros [H|H]; [discriminate|]. injection H as ->. reflexivity.
  - split; [discriminate|]. intros [H|H]; discriminate.
Qed.

Lemma lit_item (c : ascii) (rest : list Re.item) (s : string) (bos : bool) :
  Re.match_here (Re.Atom (Re.Lit c) Re.One :: rest) s bos = true
  <-> exists s', s = String c s' /\ Re.match_here rest s' false = true.
Proof.
  simpl. destruct s as [|c' s]; [split; [discriminate|intros (s' & H & _); discriminate]|].
  rewrite andb_true_iff, Ascii.eqb_eq. split.
  - intros [-> H]. eauto.
  - intros (s' & E & H). injection E as -> ->. auto.
Qed.

Lemma opt_item (c : ascii) (rest : list Re.item) (s : string) (bos : bool) :
  Re.match_here (Re.Atom (Re.Lit c) Re.Opt :: rest) s bos = true
  <-> (exists s', s = String c s' /\ Re.match_here rest s' false = true)
      \/ Re.match_here rest s bos = true.
Proof.
  rewrite <- (lit_item c rest s bos). simpl. rewrite orb_true_iff. reflexivity.
Qed.

Lemma eol_item (s : string) (bos : bool) :
  Re.match_here [Re.Eol] s bos = true <-> s = EmptyString \/ s = PyStr.nl.
Proof. simpl. rewrite andb_true_r. apply at_end_spec. Qed.

Lemma re_match_str_true (pattern : string) (items : list Re.item) (s : string) :
  Re.compile pattern = Some items ->
  (re_match pattern (JStr s) = inr true <-> Re.match_here items s true = true).
Proof.
  intros H. unfold re_match. rewrite H. split; [intros E; now injection E|].
  now intros ->.
Qed.

(** X13.  The rule for [username_claimed] accepts exactly the strings made
    of one or more word characters (letters, digits, underscore), with or
    without one line feed after them. *)
Theorem username_pattern_language (s : string) :
  re_match "^\w+$" (JStr s) = inr true
  <-> exists w e,
        w <> EmptyString
        /\ str_all (fun c => PyStr.isalnum c || Ascii.eqb c "_") w = true
        /\ (e = EmptyString \/ e = PyStr.nl)
        /\ s = (w ++ e)%string.
Proof.
  rewrite (re_match_str_true _ _ s word_pattern_items).
  change (Re.match_here [Re.Bol; Re.Atom Re.Word Re.Plus; Re.Eol] s true)
    with (Re.match_here [Re.Atom Re.Word Re.Plus; Re.Eol] s true).
  rewrite plus_item, plus_loop_spec. split.
  - intros (c & a & t & -> & Hc & Ha & Ht). apply eol_item in Ht.
    exists (String c a), t. repeat split; auto; [discriminate|].
    cbn [str_all]. apply andb_true_iff. split; [exact Hc|exact Ha].
  - intros (w & e & Hw & Hall & He & ->).
    destruct w as [|c a]; [congruence|]. cbn [str_all] in Hall.
    apply andb_true_iff in Hall. destruct Hall as [Hc Ha].
    exists c, a, e. repeat split; [exact Hc|exact Ha|now apply eol_item].
Qed.

(** X14.  The rule for [url] accepts exactly the strings that are
    [http://] or [https://], one or more characters that are not white
    space, a dot, again one or more characters that are not white space,
    and then nothing or one line feed. *)
Theorem url_pattern_language (s : string) :
  re_match "^https?://\S+\.\S+$" (JStr s) = inr true
  <-> exists scheme a b e,
        (scheme = "http://" \/ scheme = "https://")
        /\ a <> EmptyString /\ b <> EmptyString
        /\ str_all (fun c => negb (PyStr.isspace c)) a = true
        /\ str_all (fun c => negb (PyStr.isspace c)) b = true
        /\ (e = EmptyString \/ e = PyStr.nl)
        /\ s = (scheme ++ a ++ "." ++ b ++ e)%string.
Proof.
  assert (NS : forall c, Re.cset_mem (Re.Space false) c = negb (PyStr.isspace c)).
  { intros c. simpl. now destruct (PyStr.isspace c). }
  assert (ALL : forall a, str_all (Re.cset_mem (Re.Space false)) a
                          = str_all (fun c => negb (PyStr.isspace c)) a).
  { induction a as [|c a IH]; simpl in *; [reflexivity|].
    rewrite IH. now destruct (PyStr.isspace c). }
  assert (TAIL : forall r,
    Re.match_here [Re.Atom (Re.Lit ":") Re.One; Re.Atom (Re.Lit "/") Re.One;
                   Re.Atom (Re.Lit "/") Re.One; Re.Atom (Re.Space false) Re.Plus;
                   Re.Atom (Re.Lit ".") Re.One; Re.Atom (Re.Space false) Re.Plus;
                   Re.Eol] r false = true
    <-> exists a b e,
          a <> EmptyString /\ b <> EmptyString
          /\ str_all (fun c => negb (PyStr.isspace c)) a = true
          /\ str_all (fun c => negb (PyStr.isspace c)) b = true
          /\ (e = EmptyString \/ e = PyStr.nl)
          /\ r = ("://" ++ a ++ "." ++ b ++ e)%string).
  { intros r. split.
    - intros H.
      apply lit_item in H. destruct H as (r1 & -> & H).
      apply lit_item in H. destruct H as (r2 & -> & H).
      apply lit_item in H. destruct H as (r3 & -> & H).
      rewrite plus_item in H. apply plus_loop_spec in H.
      destruct H as (c & a & t & -> & Hc & Ha & H).
      apply lit_item in H. destruct H as (t1 & -> & H).
      rewrite plus_item in H. apply plus_loop_spec in H.
      destruct H as (c' & b & e & -> & Hc' & Hb & He).
      apply eol_item in He. rewrite NS in Hc, Hc'. rewrite ALL in Ha, Hb.
      exists (String c a), (String c' b), e. simpl. rewrite Hc, Hc', Ha, Hb.
      repeat split; auto; discriminate.
    - intros (a & b & e & Ha0 & Hb0 & Ha & Hb & He & ->).
      destruct a as [|c a]; [congruence|]. destruct b as [|c' b]; [congruence|].
      simpl in Ha, Hb. apply andb_true_iff in Ha, Hb.
      destruct Ha as [Hc Ha], Hb as [Hc' Hb].
      apply lit_item. eexists. split; [reflexivity|].
      apply lit_item. eexists. split; [reflexivity|].
      apply lit_item. eexists. split; [reflexivity|].
      rewrite plus_item. apply plus_loop_spec.
      exists c, a, ("." ++ String c' b ++ e)%string.
      rewrite NS, ALL. repeat split; auto.
      apply lit_item. eexists. split; [reflexivity|].
      rewrite plus_item. apply plus_loop_spec.
      exists c', b, e. rewrite NS, ALL. repeat split; auto.
      now apply eol_item. }
  rewrite (re_match_str_true _ _ s url_pattern_items).
  match goal with
  | |- Re.match_here (Re.Bol :: ?items) s true = true <-> _ =>
      change (Re.match_here (Re.Bol :: items) s true)
        with (Re.match_here items s true)
  end.
  split.
  - intros H.
    apply lit_item in H. destruct H as (r1 & -> & H).
    apply lit_item in H. destruct H as (r2 & -> & H).
    apply lit_item in H. destruct H as (r3 & -> & H).
    apply lit_item in H. destruct H as (r4 & -> & H).
    apply opt_item in H. destruct H as [(r5 & -> & H)|H];
      apply TAIL in H; destruct H as (a & b & e & Ha0 & Hb0 & Ha & Hb & He & ->).
    + exists "https://", a, b, e. repeat split; auto.
    + exists "http://", a, b, e. repeat split; auto.
  - intros (scheme & a & b & e & Hs & Ha0 & Hb0 & Ha & Hb & He & ->).
    assert (T := proj2 (TAIL ("://" ++ a ++ "." ++ b ++ e)%string)).
    specialize (T (ex_intro _ a (ex_intro _ b (ex_intro _ e
                     (conj Ha0 (conj Hb0 (conj Ha (conj Hb (conj He eq_refl))))))))).
    destruct Hs as [->| ->].
    + apply lit_item. eexists. split; [reflexivity|].
      apply lit_item. eexists. split; [reflexivity|].
      apply lit_item. eexists. split; [reflexivity|].
      apply lit_item. eexists. split; [reflexivity|].
      apply opt_item. right. exact T.
    + apply lit_item. eexists. split; [reflexivity|].
      apply lit_item. eexists. split; [reflexivity|].
      apply lit_item. eexists. split; [reflexivity|].
      apply lit_item. eexists. split; [reflexivity|].
      apply opt_item. left. eexists. split; [reflexivity|]. exact T.
Qed.

(** ** The name list, iteration and size *)

Lemma string_leb_refl (a : string) : String.leb a a = true.
Proof. now destruct (String.leb_total a a). Qed.

Lemma insert_same_key {A : Type} (key : A -> string) (k : string) (x : A)
    (l : list A) :
  filter (same_key key k) (PyStr.insert key x l)
  = filter (same_key key k) (x :: l).
Proof.
  induction l as [|y l IH]; [reflexivity|].
  cbn [PyStr.insert]. destruct (String.leb (key x) (key y)) eqn:E; [reflexivity|].
  cbn [filter] in *. rewrite IH. unfold same_key.
  destruct (String.eqb_spec (key x) k) as [Hx|Hx];
    destruct (String.eqb_spec (key y) k) as [Hy|Hy]; try reflexivity.
  rewrite Hx, Hy, string_leb_refl in E. discriminate.
Qed.

Lemma sorted_same_key {A : Type} (key : A -> string) (k : string) (l : list A) :
  filter (same_key key k) (PyStr.sorted key l) = filter (same_key key k) l.
Proof.
  induction l as [|x l IH]; [reflexivity|].
  cbn [PyStr.sorted fold_right]. fold (PyStr.sorted key l).
  rewrite insert_same_key. cbn [filter]. now rewrite IH.
Qed.

(** X9.  The sort of [site_name_list] is stable: names with the same
    lower-case form come out in the order the catalog has them. *)
Theorem site_name_list_stable (self : SitesInformation) (k : string) :
  Dict.wf (sites self) ->
  exists names,
    result (site_name_list self) = inr names
    /\ filter (same_key PyStr.lower k) names
       = filter (same_key PyStr.lower k) (map name (Dict.values (sites self))).
Proof.
  intros Hwf. eexists. split.
  - unfold site_name_list. erewrite bind_inr by (now apply iter_sites_values).
    reflexivity.
  - apply sorted_same_key.
Qed.

Lemma site_name_list_stable_witness :
  exists names,
    result (site_name_list (catalog_of sample_data)) = inr names
    /\ filter (same_key PyStr.lower "x") names
       = filter (same_key PyStr.lower "x")
                (map name (Dict.values (sites (catalog_of sample_data)))).
Proof.
  exact (site_name_list_stable (catalog_of sample_data) "x" (proj1 sample_catalog_ok)).
Defined.

(** X10.  Iterating a catalog yields its records once each, in the order
    of insertion, prints nothing and changes nothing; [len] is the number
    of records yielded, and [site_name_list] has that many names. *)
Theorem iteration_and_size (self : SitesInformation) :
  Dict.wf (sites self) ->
  iter_sites self = Outcome [] self (inr (Dict.values (sites self)))
  /\ len self = Outcome [] self (inr (List.length (Dict.values (sites self))))
  /\ exists names,
       site_name_list self = Outcome [] self (inr names)
       /\ List.length names = List.length (Dict.values (sites self)).
Proof.
  intros Hwf. split; [now apply iter_sites_values|]. split.
  - unfold len. erewrite bind_inr by reflexivity. cbn zeta.
    unfold ret, Dict.values. now rewrite length_map.
  - eexists. split.
    + unfold site_name_list. erewrite bind_inr by (now apply iter_sites_values).
      reflexivity.
    + rewrite <- (Permutation_length (sorted_perm PyStr.lower _)).
      now rewrite length_map.
Qed.

Lemma iteration_and_size_witness :
  iter_sites (catalog_of sample_data)
  = Outcome [] (catalog_of sample_data)
            (inr (Dict.values (sites (catalog_of sample_data))))
  /\ len (catalog_of sample_data) = Outcome [] (catalog_of sample_data) (inr 2%nat).
Proof.
  destruct (iteration_and_size (catalog_of sample_data) (proj1 sample_catalog_ok))
    as (H1 & H2 & _).
  split; [exact H1|exact H2].
Defined.

(** ** More on [remove_nsfw_sites] *)

Lemma filter_comm {A : Type} (f g : A -> bool) (l : list A) :
  filter f (filter g l) = filter g (filter f l).
Proof.
  induction l as [|x l IH]; simpl; [reflexivity|].
  destruct (f x) eqn:F, (g x) eqn:G; simpl; rewrite ?F, ?G, IH; reflexivity.
Qed.

Lemma filter_absorb {A : Type} (f g : A -> bool) (l : list A) :
  (forall x, f x = true -> g x = true) -> filter g (filter f l) = filter f l.
Proof.
  intros H. induction l as [|x l IH]; simpl; [reflexivity|].
  destruct (f x) eqn:F; simpl; [rewrite (H x F), IH|]; auto.
Qed.

Lemma filter_length_le {A : Type} (f : A -> bool) (l : list A) :
  List.length (filter f l) <= List.length l.
Proof.
  induction l as [|x l IH]; simpl; [lia|]. destruct (f x); simpl; lia.
Qed.

Lemma kept_mono (keep keep' : list string) (entry : string * SiteInformation) :
  incl keep keep' -> kept keep entry = true -> kept keep' entry = true.
Proof.
  intros Hi. destruct entry as [k site]. rewrite !kept_spec.
  intros H [T N]. apply H. split; [exact T|]. intros I. apply N.
  apply in_map_iff in I. destruct I as [n [E I]].
  apply in_map_iff. exists n. auto.
Qed.

(** X6.  [remove_nsfw_sites] prints nothing and raises nothing; it leaves
    the entries it keeps in the order they had, so the catalog does not
    grow. *)
Theorem remove_nsfw_sites_keeps_order
    (self : SitesInformation) (do_not_remove : list string) :
  Dict.wf (sites self) ->
  remove_nsfw_sites do_not_remove self
  = Outcome [] {| sites := filter (kept do_not_remove) (sites self) |} (inr tt)
  /\ List.length (sites (final (remove_nsfw_sites do_not_remove self)))
     <= List.length (sites self).
Proof.
  intros Hwf. rewrite (remove_nsfw_sites_filter do_not_remove self Hwf).
  split; [reflexivity|]. apply filter_length_le.
Qed.

Lemma remove_nsfw_sites_keeps_order_witness :
  remove_nsfw_sites [] (catalog_of sample_data)
  = Outcome [] {| sites := filter (kept []) (sites (catalog_of sample_data)) |}
            (inr tt)
  /\ List.length (sites (final (remove_nsfw_sites [] (catalog_of sample_data))))
     <= List.length (sites (catalog_of sample_data)).
Proof.
  exact (remove_nsfw_sites_keeps_order (catalog_of sample_data) []
           (proj1 sample_catalog_ok)).
Defined.

(** X7.  Two removals with different lists of names to keep can be done in
    either order. *)
Theorem remove_nsfw_sites_commute
    (self : SitesInformation) (keep keep' : list string) :
  Dict.wf (sites self) ->
  final (remove_nsfw_sites keep' (final (remove_nsfw_sites keep self)))
  = final (remove_nsfw_sites keep (final (remove_nsfw_sites keep' self))).
Proof.
  intros Hwf.
  rewrite (remove_nsfw_sites_filter keep self Hwf).
  rewrite (remove_nsfw_sites_filter keep' self Hwf). cbn [final].
  rewrite !remove_nsfw_sites_filter by (cbn [sites]; now apply wf_filter).
  cbn [final sites]. now rewrite filter_comm.
Qed.

Lemma remove_nsfw_sites_commute_witness :
  final (remove_nsfw_sites ["X"] (final (remove_nsfw_sites [] (catalog_of sample_data))))
  = final (remove_nsfw_sites [] (final (remove_nsfw_sites ["X"] (catalog_of sample_data)))).
Proof.
  exact (remove_nsfw_sites_commute (catalog_of sample_data) [] ["X"]
           (proj1 sample_catalog_ok)).
Defined.

(** X8.  A removal that keeps more names changes nothing after a removal
    that keeps fewer: what the stricter one left, the laxer one leaves. *)
Theorem remove_nsfw_sites_absorb
    (self : SitesInformation) (keep keep' : list string) :
  Dict.wf (sites self) -> incl keep keep' ->
  final (remove_nsfw_sites keep' (final (remove_nsfw_sites keep self)))
  = final (remove_nsfw_sites keep self).
Proof.
  intros Hwf Hi.
  rewrite (remove_nsfw_sites_filter keep self Hwf). cbn [final].
  rewrite remove_nsfw_sites_filter by (cbn [sites]; now apply wf_filter).
  cbn [final sites]. rewrite filter_absorb; [reflexivity|].
  intros entry. now apply kept_mono.
Qed.

Lemma remove_nsfw_sites_absorb_witness :
  final (remove_nsfw_sites ["X"] (final (remove_nsfw_sites [] (catalog_of sample_data))))
  = final (remove_nsfw_sites [] (catalog_of sample_data)).
Proof.
  refine (remove_nsfw_sites_absorb (catalog_of sample_data) [] ["X"]
            (proj1 sample_catalog_ok) _).
  intros x [].
Defined.

(** ** Construction followed by the filter *)

(** X5.  After a data set is built and filtered, the site of an entry is
    in the catalog exactly when the entry's [isNSFW] value (false when the
    entry has none) is falsy or the site's name, case-folded, is among the
    names to keep. *)
Theorem built_then_filtered
    (urandom : nat -> Byte.byte) (site_data : Dict.dict json)
    (do_not_remove : list string) (site_name : string) (d : Dict.dict json) :
  Dict.wf site_data ->
  result (_initialize_sites urandom site_data {| sites := [] |}) = inr tt ->
  In (site_name, JDict d) site_data ->
  let built_catalog := final (_initialize_sites urandom site_data {| sites := [] |}) in
  let after := final (remove_nsfw_sites do_not_remove built_catalog) in
  Dict.mem site_name (sites built_catalog) = true
  /\ (Dict.mem site_name (sites after) = true
      <-> ~ (truthy (get_default d "isNSFW" (JBool false)) = true
             /\ ~ In (PyStr.casefold site_name)
                     (map PyStr.casefold do_not_remove))).
Proof.
  intros Hwf Hret Hin. cbn zeta.
  apply (initialize_sites_returns urandom _ Hwf) in Hret.
  rewrite initialize_sites_complete by assumption. cbn [final].
  pose proof (built_catalog_ok urandom site_data Hwf) as [Hbwf _].
  cbn [sites] in Hbwf.
  rewrite remove_nsfw_sites_filter by exact Hbwf. cbn [final sites].
  assert (Hm : missing_field d = None).
  { rewrite Forall_forall in Hret. specialize (Hret _ Hin). simpl in Hret.
    now destruct (missing_field d). }
  destruct (complete_site_of_entry urandom site_name d Hm) as [site Hs].
  assert (Hb : In (site_name, site) (built urandom site_data)).
  { unfold built. apply in_flat_map. exists (site_name, JDict d).
    split; [exact Hin|]. unfold built_entry. cbn [fst snd]. rewrite Hs. now left. }
  pose proof (site_of_entry_fields urandom _ _ _ Hs) as (_ & Hd & _ & _ & _ & Hn & _).
  injection Hd as Hd. subst d.
  unfold Dict.mem. rewrite (get_in_wf _ _ _ Hbwf Hb). split; [reflexivity|].
  rewrite <- Hn, <- kept_spec.
  destruct (kept do_not_remove (site_name, site)) eqn:K.
  - assert (I : In (site_name, site) (filter (kept do_not_remove) (built urandom site_data)))
      by (apply filter_In; auto).
    rewrite (get_in_wf _ _ _ (wf_filter _ _ Hbwf) I). tauto.
  - destruct (Dict.get (filter (kept do_not_remove) (built urandom site_data)) site_name)
      as [site'|] eqn:G; [|split; discriminate].
    apply get_some_in in G. apply filter_In in G. destruct G as [G K'].
    assert (site' = site) by (eapply wf_unique; eauto). subst site'. congruence.
Qed.

Lemma built_then_filtered_witness :
  Dict.mem "SiteA" (sites (catalog_of sample_data)) = true
  /\ (Dict.mem "SiteA"
        (sites (final (remove_nsfw_sites [] (catalog_of sample_data)))) = true
      <-> ~ (truthy (get_default
                       [("urlMain", JStr "https://a.com");
                        ("url", JStr "https://a.com/{}");
                        ("username_claimed", JStr "admin")]
                       "isNSFW" (JBool false)) = true
             /\ ~ In (PyStr.casefold "SiteA") (map PyStr.casefold []))).
Proof.
  refine (built_then_filtered count_up sample_data [] "SiteA" _ sample_data_wf _ _).
  - vm_compute. reflexivity.
  - left. reflexivity.
Defined.

(** ** What [detect_anomalies] prints *)



Lemma re_match_false_str (rule : string * string) (value : json) :
  In rule patterns -> re_match (snd rule) value = inr false ->
  exists v, value = JStr v.
Proof.
  intros I H. destruct (re_match_patterns rule I) as [items E].
  rewrite E in H. destruct value; try discriminate. eauto.
Qed.




(** X12.  When [detect_anomalies] runs to its end on a catalog, the
    diagnostic for a record and a rule is printed exactly when the record
    has a string under the rule's key that the rule's pattern does not
    match.  This holds for both rules, [url] and [username_claimed]. *)
Theorem detect_anomalies_rule_diagnostic
    (self : SitesInformation) (site : SiteInformation) (key pattern : string) :
  catalog_ok self ->
  In site (Dict.values (sites self)) ->
  result (detect_anomalies self) = inr tt ->
  In (key, pattern) patterns ->
  (In (Print (anomaly_message (name site) key)) (trace (detect_anomalies self))
   <-> exists v, Dict.get (information site) key = Some (JStr v)
                 /\ re_match pattern (JStr v) = inr false).
Proof.
  intros Hok Hin. rewrite detect_anomalies_outcome. cbn [result trace].
  intros Hret Hrule. split.
  - intros Hev.
    apply rounds_trace_in in Hev. destruct Hev as [site' [I' Hev]].
    apply rounds_trace_in in Hev. destruct Hev as [rule [Ir Hev]].
    apply rule_trace_in in Hev. destruct Hev as [E [value [Hget Hno]]].
    apply Print_inj in E.
    apply anomaly_message_inj in E;
      [|apply (in_map fst) in Hrule; exact Hrule
       |apply (in_map fst) in Ir; exact Ir].
    destruct E as [En Ek].
    assert (site = site') by (eapply catalog_site_unique; eauto). subst site'.
    assert (rule = (key, pattern)).
    { destruct Ir as [<-|[<-|[]]]; destruct Hrule as [H|[H|[]]];
        injection H as <- <-; simpl in Ek; try reflexivity; discriminate. }
    subst rule. simpl in Hget, Hno.
    destruct (re_match_false_str (key, pattern) value Hrule Hno) as [v ->]. eauto.
  - intros (v & Hget & Hno).
    eapply rounds_trace_all; [exact Hret|exact Hin|].
    apply rounds_return in Hret. rewrite Forall_forall in Hret.
    apply rounds_trace_all with (x := (key, pattern)).
    + apply Hret, Hin.
    + exact Hrule.
    + unfold rule_trace. cbn [fst snd]. rewrite Hget, Hno. now left.
Qed.

Lemma detect_anomalies_rule_diagnostic_witness :
  In (Print (anomaly_message "x" "username_claimed"))
     (trace (detect_anomalies (catalog_of sample_data)))
  <-> exists v, Dict.get (information site_x) "username_claimed" = Some (JStr v)
                /\ re_match "^\w+$" (JStr v) = inr false.
Proof.
  refine (detect_anomalies_rule_diagnostic (catalog_of sample_data) site_x
            "username_claimed" "^\w+$" sample_catalog_ok _ _ _).
  - vm_compute. right. left. reflexivity.
  - vm_compute. reflexivity.
  - right. left. reflexivity.
Defined.

(** ** The constructor *)

Section ConstructorFacts.
Variable urandom : nat -> Byte.byte.
Variables requests_get open_json : string -> reply.

Lemma round_no_io (site_data : Dict.dict json) (site_name : string)
    (s : SitesInformation) :
  filter is_io (trace (round urandom site_data site_name s)) = [].
Proof.
  destruct (Dict.get site_data site_name) as [entry|] eqn:G.
  - rewrite (round_outcome urandom site_data site_name entry s G).
    destruct entry as [| | | | | |d]; try reflexivity.
    destruct (missing_field d); [reflexivity|].
    destruct (site_of_entry urandom site_name (JDict d)); reflexivity.
  - unfold round, try_except, subscript. rewrite G. reflexivity.
Qed.

Lemma for_no_io {S X : Type} (body : X -> M S unit) (l : list X) :
  (forall x s, filter is_io (trace (body x s)) = []) ->
  forall s, filter is_io (trace (for_ l body s)) = [].
Proof.
  intros Hb. induction l as [|x l IH]; intros s; [reflexivity|].
  cbn [for_]. unfold bind. destruct (result (body x s)); cbn [trace].
  - apply Hb.
  - now rewrite filter_app, Hb, IH.
Qed.

Lemma initialize_sites_no_io (site_data : Dict.dict json) (s : SitesInformation) :
  filter is_io (trace (_initialize_sites urandom site_data s)) = [].
Proof. apply (for_no_io (round urandom site_data)). apply round_no_io. Qed.

Lemma load_io (path : string) :
  fst (load requests_get open_json path)
  = if PyStr.startswith (PyStr.lower path) "http"
    then [HttpGet path] else [OpenFile path].
Proof. unfold load. now destruct (PyStr.startswith _ _). Qed.

(** What a constructor call that returns has read and built. *)
Lemma SitesInformation_init_returns
    (data_file_path : option string) (io : list event) (self : SitesInformation) :
  parsed_ok requests_get -> parsed_ok open_json ->
  SitesInformation_init urandom requests_get open_json data_file_path
  = (io, inr self) ->
  exists d,
    snd (load requests_get open_json (effective_path data_file_path))
    = inr (JDict d)
    /\ Dict.wf d
    /\ Forall (fun e => incomplete (snd e) = false) (Dict.pop d "$schema")
    /\ self = {| sites := built urandom (Dict.pop d "$schema") |}
    /\ io = fst (load requests_get open_json (effective_path data_file_path))
            ++ skipped (Dict.pop d "$schema").
Proof.
  intros Hnet Hfs. unfold SitesInformation_init.
  fold (effective_path data_file_path).
  set (path := effective_path data_file_path).
  destruct (negb (PyStr.endswith (PyStr.lower path) ".json")); [discriminate|].
  assert (Hload : forall site_data,
             snd (load requests_get open_json path) = inr (JDict site_data) ->
             Dict.wf site_data).
  { unfold load. intros site_data.
    destruct (PyStr.startswith (PyStr.lower path) "http"); simpl.
    - destruct (requests_get path) eqn:E; try discriminate.
      intros H. injection H as ->. eapply Hnet; eauto.
    - destruct (open_json path) eqn:E; try discriminate.
      intros H. injection H as ->. eapply Hfs; eauto. }
  destruct (load requests_get open_json path) as [io' [e|site_data]];
    [discriminate|].
  destruct site_data as [| | | | | |d]; try discriminate. simpl pop_schema.
  cbv iota. specialize (Hload d eq_refl).
  assert (Hwf : Dict.wf (Dict.pop d "$schema")) by now apply wf_pop.
  destruct (result (_initialize_sites urandom (Dict.pop d "$schema") {| sites := [] |}))
    as [e|[]] eqn:R; [discriminate|].
  apply (initialize_sites_returns urandom _ Hwf) in R.
  rewrite initialize_sites_complete by assumption. cbn [trace final fst snd].
  intros H. injection H as <- <-.
  exists d. repeat split; auto.
Qed.

Lemma pop_removes {V : Type} (d : Dict.dict V) (k : string) :
  Dict.wf d -> ~ In k (Dict.keys (Dict.pop d k)).
Proof.
  unfold Dict.wf. induction d as [|[k0 v] d IH]; simpl; [tauto|].
  intros Hwf. inversion Hwf as [|? ? Hnin Hnd]; subst.
  destruct (String.eqb_spec k k0) as [->|Hne]; [exact Hnin|].
  simpl. intros [E|I]; [congruence|]. now apply IH.
Qed.

(** X1.  The constructor reads its source at most once: not at all when
    the path (the default URL for a path that is omitted or empty) does
    not end in ".json"; otherwise it fetches the path when its lower-case
    form starts with "http" and opens it as a file when not.  Everything
    else it does is printing. *)
Theorem constructor_io (data_file_path : option string) :
  let path := effective_path data_file_path in
  filter is_io
    (fst (SitesInformation_init urandom requests_get open_json data_file_path))
  = if negb (PyStr.endswith (PyStr.lower path) ".json") then []
    else if PyStr.startswith (PyStr.lower path) "http" then [HttpGet path]
    else [OpenFile path].
Proof.
  cbn zeta. unfold SitesInformation_init. fold (effective_path data_file_path).
  set (path := effective_path data_file_path).
  destruct (negb (PyStr.endswith (PyStr.lower path) ".json")); [reflexivity|].
  rewrite <- load_io.
  destruct (load requests_get open_json path) as [io [e|site_data]] eqn:L;
    cbn [fst].
  - pose proof (load_io path) as H. rewrite L in H. cbn [fst] in H.
    rewrite H. now destruct (PyStr.startswith _ _).
  - pose proof (load_io path) as H. rewrite L in H. cbn [fst] in H.
    assert (Hio : filter is_io io = io)
      by (rewrite H; now destruct (PyStr.startswith _ _)).
    destruct (pop_schema site_data) as [e|d]; cbn [fst]; [exact Hio|].
    now rewrite filter_app, initialize_sites_no_io, app_nil_r.
Qed.

(** X2.  A catalog that the constructor returns has pairwise distinct
    keys, each the name of its record; it has no site for the key
    "$schema" of the data file; and every record holds, in [information],
    the two keys that the rules of [detect_anomalies] read. *)
Theorem constructor_catalog
    (data_file_path : option string) (io : list event) (self : SitesInformation) :
  parsed_ok requests_get -> parsed_ok open_json ->
  SitesInformation_init urandom requests_get open_json data_file_path
  = (io, inr self) ->
  catalog_ok self
  /\ Dict.mem "$schema" (sites self) = false
  /\ Forall (fun site =>
               Dict.get (information site) "url" = Some (url_username_format site)
               /\ Dict.get (information site) "username_claimed"
                  = Some (username_claimed site))
            (Dict.values (sites self)).
Proof.
  intros Hnet Hfs H.
  destruct (SitesInformation_init_returns _ _ _ Hnet Hfs H)
    as (d & _ & Hwf & _ & -> & _).
  assert (Hp : Dict.wf (Dict.pop d "$schema")) by now apply wf_pop.
  split; [now apply built_catalog_ok|]. split.
  - cbn [sites]. unfold Dict.mem.
    destruct (Dict.get (built urandom (Dict.pop d "$schema")) "$schema") eqn:G;
      [|reflexivity].
    exfalso. apply get_some_in, in_keys, keys_built_in in G.
    now apply (pop_removes d "$schema" Hwf).
  - cbn [sites]. apply Forall_forall. intros site I.
    apply values_in in I. destruct I as [k I].
    apply built_in in I. destruct I as [entry [_ E]].
    apply site_of_entry_fields in E. tauto.
Qed.

(** X3.  When the source holds a JSON object in which every site that is
    a mapping has the required fields, the constructor returns the catalog
    of those sites, in the order of the object and without "$schema", and
    prints one message for each entry that is no mapping. *)
Theorem constructor_builds
    (data_file_path : option string) (io : list event) (d : Dict.dict json) :
  let path := effective_path data_file_path in
  PyStr.endswith (PyStr.lower path) ".json" = true ->
  load requests_get open_json path = (io, inr (JDict d)) ->
  Dict.wf d ->
  Forall (fun e => incomplete (snd e) = false) (Dict.pop d "$schema") ->
  SitesInformation_init urandom requests_get open_json data_file_path
  = (io ++ skipped (Dict.pop d "$schema"),
     inr {| sites := built urandom (Dict.pop d "$schema") |})
  /\ Dict.keys (built urandom (Dict.pop d "$schema"))
     = Dict.keys (filter (fun e => is_mapping (snd e)) (Dict.pop d "$schema")).
Proof.
  cbn zeta. intros Hext Hload Hwf Hall.
  assert (Hp : Dict.wf (Dict.pop d "$schema")) by now apply wf_pop.
  split.
  - unfold SitesInformation_init. fold (effective_path data_file_path).
    rewrite Hext. cbn [negb]. rewrite Hload. cbn [pop_schema].
    now rewrite initialize_sites_complete.
  - now rewrite keys_built, complete_valid_mapping.
Qed.

End ConstructorFacts.

(** X4.  [_initialize_sites] stops at the first mapping that lacks a
    required field: the catalog then holds the sites of the entries before
    it, only their skip messages were printed, and the error names the
    first required field, in the order [urlMain], [url],
    [username_claimed], that the mapping lacks. *)
Theorem initialize_sites_stops_at_first_incomplete
    (urandom : nat -> Byte.byte) (site_data pre post : Dict.dict json)
    (site_name field : string) (d : Dict.dict json) :
  Dict.wf site_data ->
  site_data = pre ++ (site_name, JDict d) :: post ->
  Forall (fun e => incomplete (snd e) = false) pre ->
  missing_field d = Some field ->
  _initialize_sites urandom site_data {| sites := [] |}
  = Outcome (skipped pre) {| sites := built urandom pre |}
            (inl (ValueError (missing_attribute_message (KeyError field)))).
Proof. apply initialize_loop_abort. Qed.

Lemma initialize_sites_stops_at_first_incomplete_witness :
  _initialize_sites count_up incomplete_data {| sites := [] |}
  = Outcome [Print (skip_message "Broken")]
            {| sites := built count_up (firstn 2 incomplete_data) |}
            (inl (ValueError
                    "Problem parsing json contents: Missing attribute 'url'.")).
Proof.
  refine (initialize_sites_stops_at_first_incomplete count_up incomplete_data
            (firstn 2 incomplete_data) [("Later", JNull)] "NoUrl" "url"
            [("urlMain", JStr "https://n.org")] _ _ _ _).
  - solve_wf.
  - reflexivity.
  - repeat constructor.
  - reflexivity.
Defined.

Lemma schema_data_wf : Dict.wf schema_data.
Proof. solve_wf. Qed.

Lemma file_with_parsed_ok (site_data : Dict.dict json) :
  Dict.wf site_data -> parsed_ok (file_with site_data).
Proof. intros Hwf source d H. injection H as <-. exact Hwf. Qed.

Lemma offline_parsed_ok : parsed_ok offline.
Proof. intros source d H. discriminate. Qed.

Lemma constructor_catalog_witness :
  catalog_ok (catalog_of sample_data)
  /\ Dict.mem "$schema" (sites (catalog_of sample_data)) = false
  /\ Forall (fun site =>
               Dict.get (information site) "url" = Some (url_username_format site)
               /\ Dict.get (information site) "username_claimed"
                  = Some (username_claimed site))
            (Dict.values (sites (catalog_of sample_data))).
Proof.
  refine (constructor_catalog count_up offline (file_with schema_data)
            (Some "Data.JSON")
            [OpenFile "Data.JSON"; Print (skip_message "Broken")]
            (catalog_of sample_data) offline_parsed_ok
            (file_with_parsed_ok schema_data schema_data_wf) _).
  vm_compute. reflexivity.
Defined.

Lemma constructor_builds_witness :
  SitesInformation_init count_up (file_with schema_data) offline
    (Some "HTTPS://example.org/data.json")
  = ([HttpGet "HTTPS://example.org/data.json"] ++ skipped sample_data,
     inr {| sites := built count_up sample_data |})
  /\ Dict.keys (built count_up sample_data) = ["SiteA"; "x"].
Proof.
  refine (constructor_builds count_up (file_with schema_data) offline
            (Some "HTTPS://example.org/data.json")
            [HttpGet "HTTPS://example.org/data.json"] schema_data _ _
            schema_data_wf _).
  - reflexivity.
  - reflexivity.
  - repeat constructor.
Defined.
